(** * Optimization_Script.py: composition grid, spectral scores, arg-max

    A shallow embedding of the dye-combination search script.

    - The composition enumerator (lines 73-99) is embedded on binary64
      floating-point numbers (Rocq's primitive floats), because the simplex
      filter [Sum == 1] is a floating-point equality test.
    - The spectral part (reference spectrum, response evaluator [F], the
      three scores) is embedded in exact real arithmetic: spectra are lists
      of reals, [nan] is a separate value of the correlation score.
    - The reference spectrum and the first checks of Pearson's r are
      embedded a second time on binary64 ([Float64]), to show what rounding
      does to the identities of exact arithmetic.
    - Python exceptions are the [Raise] case of an error monad.

    Library functions the script calls (numpy's [linspace], [meshgrid],
    [where], [cov]; scipy's [trapezoid], [pearsonr]) are written out from
    their implementation in the versions the script names. *)

From Stdlib Require Import List Arith ZArith Bool Lia Floats Reals Lra.
Import ListNotations.

Set Implicit Arguments.

(* ================================================================== *)
(** * Python exceptions as an error monad *)

Inductive exn : Type :=
| IndexError
| ValueError
| TypeError.

Inductive result (A : Type) : Type :=
| Ok (a : A)
| Raise (e : exn).

Arguments Ok {A} a.
Arguments Raise {A} e.

Definition bind {A B : Type} (m : result A) (k : A -> result B) : result B :=
  match m with
  | Ok a => k a
  | Raise e => Raise e
  end.

Notation "x <- m ;; k" := (bind m (fun x => k))
  (at level 61, m at next level, right associativity).

(* ================================================================== *)
(** * numpy array helpers (arrays are flat lists in C order) *)

Section Arrays.
Context {A : Type}.

(** [np.repeat]: every element [n] times in a row. *)
Definition np_repeat (n : nat) (l : list A) : list A :=
  flat_map (fun a => repeat a n) l.

(** [np.tile]: the whole array [n] times. *)
Definition np_tile (n : nat) (l : list A) : list A :=
  concat (repeat l n).

(** Boolean-mask indexing [a[condition]]: the elements of [a] at the
    positions where [condition] holds, in flat order. *)
Definition np_mask (a : list A) (condition : list bool) : list A :=
  map fst (filter snd (combine a condition)).

(** [y[-1] = stop] on a non-empty array. *)
Fixpoint set_last (y : list A) (stop : A) : list A :=
  match y with
  | [] => []
  | [_] => [stop]
  | a :: y' => a :: set_last y' stop
  end.
End Arrays.

(* ================================================================== *)
(** * The composition enumerator (binary64) *)

Module Grid.

Local Open Scope float_scope.

(** A Composition: the six volume fractions, in the order of the
    script's [V1 .. V6]. *)
Definition composition : Type := (float * float * float * float * float * float)%type.

(** Conversion of a (small, non-negative) Python int to float64. *)
Definition float_of_Z (z : Z) : float :=
  PrimFloat.of_uint63 (Uint63.of_Z z).

(** [np.arange(start, start + num)] as float64. *)
Fixpoint arange_from (start : Z) (num : nat) : list float :=
  match num with
  | O => []
  | S num' => float_of_Z start :: arange_from (start + 1) num'
  end.

(** [np.linspace(start, stop, num)] with [endpoint=True], as numpy 1.21
    computes it: [arange(0, num) * step + start], the last sample
    overwritten by [stop]. *)
Definition linspace (start stop : float) (num : nat) : list float :=
  let div := (num - 1)%nat in
  let delta := stop - start in
  let y := arange_from 0 num in
  let y :=
    if (0 <? div)%nat then
      let step := delta / float_of_Z (Z.of_nat div) in
      if step =? 0
      then map (fun a => (a / float_of_Z (Z.of_nat div)) * delta) y
      else map (fun a => a * step) y
    else map (fun a => a * delta) y in
  let y := map (fun a => a + start) y in
  if (1 <? num)%nat then set_last y stop else y.

(** Line 76: [v = np.linspace(0, 1, N)]. *)
Definition v (N : nat) : list float := linspace 0 1 N.

(** Line 82: [np.meshgrid(v, v, v, v, v, v, indexing = 'ij')].  Output
    [k] (counted from 0) holds [v[i_k]] at index [(i_0, ..., i_5)]; in
    flat C order that is [v] with every element repeated [n^(5-k)] times,
    the whole tiled [n^k] times, for [n = len(v)]. *)
Definition meshgrid_axis (k : nat) (v : list float) : list float :=
  let n := length v in
  np_tile (n ^ k) (np_repeat (n ^ (5 - k)) v).

(** Elementwise [a + b] of two arrays of one shape. *)
Definition np_add (a b : list float) : list float :=
  map (fun p => fst p + snd p) (combine a b).

(** Elementwise [a == c] against a scalar. *)
Definition np_eq_scalar (a : list float) (c : float) : list bool :=
  map (fun x => x =? c) a.

(** Python's [zip] of six sequences. *)
Definition zip6 (a b c d e f : list float) : list composition :=
  map (fun t => match t with (x1, (x2, (x3, (x4, (x5, x6))))) =>
                  (x1, x2, x3, x4, x5, x6) end)
      (combine a (combine b (combine c (combine d (combine e f))))).

(** Lines 82-96, and the [zip(V1, ..., V6)] the search loop iterates. *)
Definition compositions (v : list float) : list composition :=
  let v1 := meshgrid_axis 0 v in
  let v2 := meshgrid_axis 1 v in
  let v3 := meshgrid_axis 2 v in
  let v4 := meshgrid_axis 3 v in
  let v5 := meshgrid_axis 4 v in
  let v6 := meshgrid_axis 5 v in
  let Sum := np_add (np_add (np_add (np_add (np_add v1 v2) v3) v4) v5) v6 in
  let condition := np_eq_scalar Sum 1 in
  let V1 := np_mask v1 condition in
  let V2 := np_mask v2 condition in
  let V3 := np_mask v3 condition in
  let V4 := np_mask v4 condition in
  let V5 := np_mask v5 condition in
  let V6 := np_mask v6 condition in
  zip6 V1 V2 V3 V4 V5 V6.

(** ** Reference notions the enumerator is compared with *)

(** The six-fold Cartesian product of a grid, first coordinate varying
    slowest. *)
Definition product6 (v : list float) : list composition :=
  flat_map (fun x1 =>
  flat_map (fun x2 =>
  flat_map (fun x3 =>
  flat_map (fun x4 =>
  flat_map (fun x5 =>
  map (fun x6 => (x1, x2, x3, x4, x5, x6)) v) v) v) v) v) v.

(** The sum of a composition as the script adds it:
    [v1 + v2 + v3 + v4 + v5 + v6], left to right. *)
Definition fsum6 (c : composition) : float :=
  match c with
  | (x1, x2, x3, x4, x5, x6) => x1 + x2 + x3 + x4 + x5 + x6
  end.

Definition sums_to_one (c : composition) : bool := fsum6 c =? 1.

Definition in_unit_interval (x : float) : bool := (0 <=? x) && (x <=? 1).

Definition components_in_unit_interval (c : composition) : bool :=
  match c with
  | (x1, x2, x3, x4, x5, x6) =>
      in_unit_interval x1 && in_unit_interval x2 && in_unit_interval x3 &&
      in_unit_interval x4 && in_unit_interval x5 && in_unit_interval x6
  end.

(** The six coordinates of a composition. *)
Definition proj1 (c : composition) : float := match c with (x, _, _, _, _, _) => x end.
Definition proj2 (c : composition) : float := match c with (_, x, _, _, _, _) => x end.
Definition proj3 (c : composition) : float := match c with (_, _, x, _, _, _) => x end.
Definition proj4 (c : composition) : float := match c with (_, _, _, x, _, _) => x end.
Definition proj5 (c : composition) : float := match c with (_, _, _, _, x, _) => x end.
Definition proj6 (c : composition) : float := match c with (_, _, _, _, _, x) => x end.

(** A meshgrid array of [N^6] float64 values takes [8 * N^6] bytes; numpy
    cannot build an array of [2^63] bytes or more. *)
Definition meshgrid_fits (N : nat) : Prop :=
  (8 * Z.of_nat N ^ 6 < 2 ^ 63)%Z.

(** The tuple made of the first grid value five times and the last grid
    value once. *)
Definition corner (v : list float) : composition :=
  let a := hd 0 v in (a, a, a, a, a, last v 0).

Definition grid_corner_sums_to_one (N : nat) : bool :=
  sums_to_one (corner (v N)).

Definition grid_in_unit_interval (N : nat) : bool :=
  forallb in_unit_interval (v N).

(** The uniform [N]-point grid on [0, 1] in float64: the index times the
    step [1 / (N - 1)] for every point but the last, and 1 itself at the
    end. *)
Definition uniform_grid (N : nat) : list float :=
  let step := 1 / float_of_Z (Z.of_nat (N - 1)) in
  map (fun i => i * step) (arange_from 0 (N - 1)) ++ [1].

(** Two arrays hold the same float64 values, bit for bit. *)
Fixpoint same_floats (a b : list float) : bool :=
  match a, b with
  | [], [] => true
  | x :: a', y :: b' => PrimFloat.Leibniz.eqb x y && same_floats a' b'
  | _, _ => false
  end.

(** Every value is below the next one. *)
Fixpoint increasing (g : list float) : bool :=
  match g with
  | [] => true
  | a :: g' =>
      match g' with
      | [] => true
      | b :: _ => (a <? b) && increasing g'
      end
  end.

Definition grid_is_uniform (N : nat) : bool :=
  let g := v N in
  same_floats g (uniform_grid N) &&
  PrimFloat.Leibniz.eqb (hd 1 g) 0 &&
  increasing g.

(** The number of [d]-tuples of grid indices below [n] that add up to
    [s]: for [d = 6] and [s = n - 1], the number of grid points whose
    fractions add up to 1 as real numbers. *)
Fixpoint simplex_points (d n s : nat) : nat :=
  match d with
  | O => if (s =? 0)%nat then 1%nat else 0%nat
  | S d' =>
      fold_right Nat.add 0%nat
        (map (fun i => if (i <=? s)%nat then simplex_points d' n (s - i) else 0%nat)
             (seq 0 n))
  end.

(** Lines 85-88: [condition], the mask of the meshgrid positions whose
    sum is 1. *)
Definition condition (v : list float) : list bool :=
  let v1 := meshgrid_axis 0 v in
  let v2 := meshgrid_axis 1 v in
  let v3 := meshgrid_axis 2 v in
  let v4 := meshgrid_axis 3 v in
  let v5 := meshgrid_axis 4 v in
  let v6 := meshgrid_axis 5 v in
  let Sum := np_add (np_add (np_add (np_add (np_add v1 v2) v3) v4) v5) v6 in
  np_eq_scalar Sum 1.

(** Lines 91-96: the masked arrays [V1 .. V6], numbered from 0. *)
Definition V (k : nat) (v : list float) : list float :=
  np_mask (meshgrid_axis k v) (condition v).

(** Lines 229-231 (and 293-295, 355-357): the fractions printed for a
    selected index, [V1[a], ..., V6[a]]; an index out of range raises
    [IndexError]. *)
Definition fractions_at (v : list float) (a : nat) : result composition :=
  match nth_error (V 0 v) a, nth_error (V 1 v) a, nth_error (V 2 v) a,
        nth_error (V 3 v) a, nth_error (V 4 v) a, nth_error (V 5 v) a with
  | Some x1, Some x2, Some x3, Some x4, Some x5, Some x6 =>
      Ok (x1, x2, x3, x4, x5, x6)
  | _, _, _, _, _, _ => Raise IndexError
  end.

End Grid.

(* ================================================================== *)
(** * Spectra and scores (exact reals) *)

Module Spectral.

Local Open Scope R_scope.

Definition Req_bool (a b : R) : bool := if Req_EM_T a b then true else false.
Definition Rgt_bool (a b : R) : bool := if Rlt_dec b a then true else false.

(** ** numpy / scipy numerics *)

(** [np.poly1d(p)(x)]: Horner's rule, highest-degree coefficient first. *)
Definition polyval (p : list R) (x : R) : R :=
  fold_left (fun acc c => acc * x + c) p 0.

Definition np_sum (a : list R) : R := fold_right Rplus 0 a.

Definition np_add (a b : list R) : list R :=
  map (fun p => fst p + snd p) (combine a b).

Definition np_mul (a b : list R) : list R :=
  map (fun p => fst p * snd p) (combine a b).

Definition np_dot (a b : list R) : R := np_sum (np_mul a b).

(** [np.diff(x)]: [x[1:] - x[:-1]]. *)
Definition np_diff (x : list R) : list R :=
  map (fun p => fst p - snd p) (combine (tl x) (removelast x)).

(** [scipy.integrate.trapezoid(y, x)]:
    [(d * (y[1:] + y[:-1]) / 2.0).sum()] with [d = diff(x)]. *)
Definition trapezoid (y x : list R) : R :=
  let d := np_diff x in
  np_sum (map (fun t => t / 2) (np_mul d (np_add (tl y) (removelast y)))).

Definition np_mean (a : list R) : R := np_sum a / INR (length a).

Definition np_sign (x : R) : R :=
  if Rlt_dec x 0 then -1 else if Req_EM_T x 0 then 0 else 1.

(** [(x == x[0]).all()] *)
Definition all_equal_first (x : list R) : bool :=
  forallb (fun a => Req_bool a (hd 0 x)) x.

(** [scipy.linalg.norm] of a vector. *)
Definition norm (a : list R) : R := sqrt (np_sum (map (fun t => t * t) a)).

(** The first component of [scipy.stats.pearsonr(x, y)] (scipy 1.7) on
    inputs that passed its checks: [nan] (here [None]) on a constant
    input, the product of signs for two samples, else the dot product of
    the centred, normalised inputs clamped to [-1, 1]. *)
Definition pearson_r (x y : list R) : option R :=
  let n := length x in
  if all_equal_first x || all_equal_first y then None
  else if (n =? 2)%nat then
    Some (np_sign (nth 1 x 0 - nth 0 x 0) * np_sign (nth 1 y 0 - nth 0 y 0))
  else
    let xmean := np_mean x in
    let ymean := np_mean y in
    let xm := map (fun a => a - xmean) x in
    let ym := map (fun a => a - ymean) y in
    let normxm := norm xm in
    let normym := norm ym in
    let r := np_dot (map (fun a => a / normxm) xm) (map (fun a => a / normym) ym) in
    Some (Rmax (Rmin r 1) (-1)).

(** [pearsonr(x, y)[0]]: [ValueError] on unequal lengths or fewer than
    two samples. *)
Definition pearsonr (x y : list R) : result (option R) :=
  let n := length x in
  if negb (n =? length y)%nat then Raise ValueError
  else if (n <? 2)%nat then Raise ValueError
  else Ok (pearson_r x y).

(** [np.cov(x, y)] for two 1-D arrays of one length: the rows are
    centred, multiplied with their transpose and scaled by
    [1 / (n - 1)].  The result is the 2x2 matrix
    [((c00, c01), (c10, c11))]. *)
Definition np_cov (x y : list R) : (R * R) * (R * R) :=
  let xc := map (fun a => a - np_mean x) x in
  let yc := map (fun a => a - np_mean y) y in
  let fact := INR (length x) - 1 in
  ((np_dot xc xc * (1 / fact), np_dot xc yc * (1 / fact)),
   (np_dot yc xc * (1 / fact), np_dot yc yc * (1 / fact))).

(** [cov[0, 1]] *)
Definition entry01 (c : (R * R) * (R * R)) : R := snd (fst c).

(** The sample covariance of two sequences, as the specification words
    it: the sum of the products of the deviations from the means over
    [n - 1]. *)
Definition sample_covariance (x y : list R) : R :=
  np_sum (map (fun p => (fst p - np_mean x) * (snd p - np_mean y)) (combine x y))
  / (INR (length x) - 1).

(** The transform of an absorbance into a light-harvesting efficiency,
    [LHE = 1 - 10^(-absorbance)]. *)
Definition LHE (absorbance : R) : R := 1 - Rpower 10 (- absorbance).

(** ** The script's module-level state *)

(** The lists the script appends to. *)
Record state : Type := mkState {
  RBF : list (Grid.composition -> R);
  correlation : list (option R);
  integral : list R;
  covariance : list R
}.

Definition initial_state : state := mkState [] [] [] [].

(** The transformed predictions of the interpolants of a state, in
    order. *)
Definition lhe_spectrum (st : state) (c : Grid.composition) : list R :=
  map (fun interpolation => LHE (interpolation c)) (RBF st).

Section Script.

(** Line 36: the wavelength grid. *)
Variable wavelength : list R.
(** Line 39: the coefficients of the fitted polynomial. *)
Variable spectrum_regression : list R.
(** Lines 124-129: the measured volume fractions, by constituent. *)
Variables d1 d2 d3 d4 d5 d6 : list R.
(** Line 121: the absorbance matrix, one row per wavelength. *)
Variable data : list (list R).
(** [scipy.interpolate.Rbf(d1, ..., d6, values, function = 'inverse')]
    and the call of the fitted object at six fractions. *)
Variable Rbf : list R -> list R -> list R -> list R -> list R -> list R ->
               list R -> Grid.composition -> R.

(** [spectrum_regression(wavelength)] *)
Definition regression_values : list R :=
  map (polyval spectrum_regression) wavelength.

(** Line 42 *)
Definition spectrum_integral : R := trapezoid regression_values wavelength.

(** Line 45 *)
Definition normal_spectrum : list R :=
  map (fun y => y / spectrum_integral) regression_values.

(** Lines 132-141: one interpolant per row of [data]. *)
Definition fit_RBF (st : state) : state :=
  fold_left
    (fun st index_row =>
       let interpolation := Rbf d1 d2 d3 d4 d5 d6 (snd index_row) in
       mkState (RBF st ++ [interpolation])
               (correlation st) (integral st) (covariance st))
    (combine (seq 0 (length data)) data) st.

(** Lines 146-163.  [RBF[index]] raises [IndexError] out of range. *)
Fixpoint F_loop (st : state) (c : Grid.composition)
         (indices : list nat) (temp_storage : list R) : result (list R) :=
  match indices with
  | [] => Ok temp_storage
  | index :: rest =>
      match nth_error (RBF st) index with
      | None => Raise IndexError
      | Some interpolation =>
          let RBF_absorbance_value := interpolation c in
          F_loop st c rest
                 (temp_storage ++ [1 - Rpower 10 (- RBF_absorbance_value)])
      end
  end.

Definition F (st : state) (c : Grid.composition) : result (list R) :=
  F_loop st c (seq 0 (length data)) [].

(** Lines 180-211: one round of the search loop. *)
Definition search_step (st : state) (c : Grid.composition) : result state :=
  lhe <- F st c ;;
  corr <- pearsonr regression_values lhe ;;
  let st := mkState (RBF st) (correlation st ++ [corr])
                    (integral st) (covariance st) in
  lhe <- F st c ;;
  let integ := trapezoid lhe wavelength in
  let st := mkState (RBF st) (correlation st)
                    (integral st ++ [integ]) (covariance st) in
  lhe <- F st c ;;
  let cov := np_cov regression_values lhe in
  Ok (mkState (RBF st) (correlation st)
              (integral st) (covariance st ++ [entry01 cov])).

Fixpoint grid_search (st : state) (comps : list Grid.composition)
  : result state :=
  match comps with
  | [] => Ok st
  | c :: rest => st' <- search_step st c ;; grid_search st' rest
  end.

End Script.

End Spectral.

(* ================================================================== *)
(** * Result selection *)

Module Selection.

(** What the [if]/[else] after each [np.where] prints. *)
Inductive report : Type :=
| MultipleBestFits
| BestFit (a : nat).

Section Scores.

Variable score : Type.
(** [==] and [>] on scores. *)
Variable eqb : score -> score -> bool.
Variable gtb : score -> score -> bool.

(** Python's [max] of a list: the first item is kept until a later
    one compares greater; [ValueError] on an empty list. *)
Fixpoint max_from (m : score) (l : list score) : score :=
  match l with
  | [] => m
  | x :: rest => max_from (if gtb x m then x else m) rest
  end.

Definition py_max (l : list score) : result score :=
  match l with
  | [] => Raise ValueError
  | x :: rest => Ok (max_from x rest)
  end.

(** The indices at which a boolean array holds, counted from [i]. *)
Fixpoint nonzero_from (i : nat) (cond : list bool) : list nat :=
  match cond with
  | [] => []
  | b :: rest =>
      if b then i :: nonzero_from (S i) rest else nonzero_from (S i) rest
  end.

(** [list(np.where(cond))] for a 1-D [cond]: a list holding ONE index
    array. *)
Definition np_where (cond : list bool) : list (list nat) :=
  [nonzero_from 0 cond].

(** [int(array)]: only an array of size 1 converts. *)
Definition int_of_array (a : list nat) : result nat :=
  match a with
  | [i] => Ok i
  | _ => Raise TypeError
  end.

(** Lines 222-231 (and 286-295, 348-357): the answer list and what is
    reported. *)
Definition answer (scores : list score) : result (list (list nat) * report) :=
  m <- py_max scores ;;
  let scores_answer := np_where (map (fun s => eqb s m) scores) in
  if (1 <? length scores_answer)%nat then Ok (scores_answer, MultipleBestFits)
  else
    a <- match scores_answer with
         | [] => Raise IndexError
         | a0 :: _ => int_of_array a0
         end ;;
    Ok (scores_answer, BestFit a).

End Scores.

(** The scores of the embedding. *)
Definition nan_eqb (a b : option R) : bool :=
  match a, b with
  | Some x, Some y => Spectral.Req_bool x y
  | _, _ => false
  end.

Definition nan_gtb (a b : option R) : bool :=
  match a, b with
  | Some x, Some y => Spectral.Rgt_bool x y
  | _, _ => false
  end.

Definition correlation_answer (st : Spectral.state) :=
  answer nan_eqb nan_gtb (Spectral.correlation st).

Definition integral_answer (st : Spectral.state) :=
  answer Spectral.Req_bool Spectral.Rgt_bool (Spectral.integral st).

Definition covariance_answer (st : Spectral.state) :=
  answer Spectral.Req_bool Spectral.Rgt_bool (Spectral.covariance st).

End Selection.

(* ================================================================== *)
(** * The script from the interpolants to the three answers *)

Module Program.
Import Spectral Selection.

(** Line 79: the printed step [v[1] - v[0]]. *)
Definition resolution (v : list float) : result float :=
  match nth_error v 1, nth_error v 0 with
  | Some a, Some b => Ok (PrimFloat.sub a b)
  | _, _ => Raise IndexError
  end.

Section Script.

Variable wavelength : list R.
Variable spectrum_regression : list R.
Variables d1 d2 d3 d4 d5 d6 : list R.
Variable data : list (list R).
Variable Rbf : list R -> list R -> list R -> list R -> list R -> list R ->
               list R -> Grid.composition -> R.

(** Lines 82-357 on a volume-fraction array [v], plotting left out: the
    enumeration, the fit of the interpolants, the search loop and the
    three answers in the order the script computes them. *)
Definition search_and_select (v : list float)
  : result (state * (report * report * report)) :=
  let comps := Grid.compositions v in
  let st := fit_RBF d1 d2 d3 d4 d5 d6 data Rbf initial_state in
  st <- grid_search wavelength spectrum_regression data st comps ;;
  a <- correlation_answer st ;;
  b <- integral_answer st ;;
  c <- covariance_answer st ;;
  Ok (st, (snd a, snd b, snd c)).

(** The script for a grid resolution [N] (line 73). *)
Definition main (N : nat) : result (state * (report * report * report)) :=
  let v := Grid.v N in
  _ <- resolution v ;;
  search_and_select v.

End Script.

End Program.

(* ================================================================== *)
(** * The reference spectrum and Pearson's r on binary64 *)

(** The numerics of lines 39-45 and of [pearsonr] once more, with the
    operations of float64 in the order numpy and scipy apply them.  They
    show where the identities of exact arithmetic stop at rounding. *)

Module Float64.

Local Open Scope float_scope.

(** [np.poly1d(p)(x)]: Horner's rule, highest-degree coefficient first. *)
Definition polyval (p : list float) (x : float) : float :=
  fold_left (fun acc c => acc * x + c) p 0.

(** [a.sum()]: numpy adds an array of fewer than 8 elements from left to
    right. *)
Definition np_sum (a : list float) : float := fold_left PrimFloat.add a 0.

Definition np_add (a b : list float) : list float :=
  map (fun p => fst p + snd p) (combine a b).

Definition np_mul (a b : list float) : list float :=
  map (fun p => fst p * snd p) (combine a b).

(** [np.diff(x)]: [x[1:] - x[:-1]]. *)
Definition np_diff (x : list float) : list float :=
  map (fun p => fst p - snd p) (combine (tl x) (removelast x)).

(** [scipy.integrate.trapezoid(y, x)]:
    [(d * (y[1:] + y[:-1]) / 2.0).sum()] with [d = diff(x)]. *)
Definition trapezoid (y x : list float) : float :=
  let d := np_diff x in
  np_sum (map (fun t => t / 2) (np_mul d (np_add (tl y) (removelast y)))).

(** [spectrum_regression(wavelength)] *)
Definition regression_values (wavelength spectrum_regression : list float)
  : list float :=
  map (polyval spectrum_regression) wavelength.

(** Line 42 *)
Definition spectrum_integral (wavelength spectrum_regression : list float)
  : float :=
  trapezoid (regression_values wavelength spectrum_regression) wavelength.

(** Line 45 *)
Definition normal_spectrum (wavelength spectrum_regression : list float)
  : list float :=
  map (fun y => y / spectrum_integral wavelength spectrum_regression)
      (regression_values wavelength spectrum_regression).

(** [np.sign] *)
Definition np_sign (x : float) : float :=
  if x <? 0 then -1 else if 0 <? x then 1 else if x =? 0 then 0 else nan.

(** [(x == x[0]).all()] *)
Definition all_equal_first (x : list float) : bool :=
  forallb (fun a => a =? hd 0 x) x.

(** [pearsonr(x, y)[0]] (scipy 1.7) up to its two-sample case.  [None]
    stands for the branch for three samples or more (means, BLAS norm and
    dot product, clamp): its rounding depends on the BLAS kernels and it
    is not embedded on float64. *)
Definition pearsonr (x y : list float) : result (option float) :=
  let n := length x in
  if negb (n =? length y)%nat then Raise ValueError
  else if (n <? 2)%nat then Raise ValueError
  else if all_equal_first x || all_equal_first y then Ok (Some nan)
  else if (n =? 2)%nat then
    Ok (Some (np_sign (nth 1 x 0 - nth 0 x 0) * np_sign (nth 1 y 0 - nth 0 y 0)))
  else Ok None.

(** ** Two small inputs *)



End Float64.

(* ================================================================== *)
(** * A small run: three wavelengths, one composition *)

Module Example.

Definition wavelength : list R := [0; 1; 2]%R.

(** The regression polynomial [2 x]. *)
Definition spectrum_regression : list R := [2; 0]%R.

(** No measured mixtures are needed: the interpolant below ignores them. *)
Definition d : list R := [].

(** Absorbance 0, 0 and 1 at the three wavelengths. *)
Definition data : list (list R) := [[0]; [0]; [1]]%R.

(** An interpolant that predicts its first training value everywhere. *)
Definition Rbf (_ _ _ _ _ _ : list R) (values : list R)
           (_ : Grid.composition) : R := hd 0%R values.

(** An interpolant that predicts its first training value where the last
    dye makes up the whole blend, and absorbance 0 elsewhere. *)
Definition Rbf_last (_ _ _ _ _ _ : list R) (values : list R)
           (c : Grid.composition) : R :=
  if PrimFloat.eqb (Grid.proj6 c) 1%float then hd 0%R values else 0%R.

Definition c0 : Grid.composition := (0, 0, 0, 0, 0, 1)%float.

Definition st0 : Spectral.state :=
  Spectral.fit_RBF d d d d d d data Rbf Spectral.initial_state.

End Example.

(* ================================================================== *)
(** * Array lemmas *)

Section ArrayFacts.
Context {A B : Type}.

Lemma np_tile_S (n : nat) (l : list A) :
  np_tile (S n) l = l ++ np_tile n l.
Proof. reflexivity. Qed.

Lemma np_tile_1 (l : list A) : np_tile 1 l = l.
Proof. unfold np_tile; simpl. apply app_nil_r. Qed.

Lemma np_tile_app (n m : nat) (l : list A) :
  np_tile (n + m) l = np_tile n l ++ np_tile m l.
Proof.
  induction n as [|n IH]; simpl; [reflexivity|].
  rewrite !np_tile_S, IH. apply app_assoc.
Qed.

Lemma np_tile_tile (n m : nat) (l : list A) :
  np_tile n (np_tile m l) = np_tile (n * m) l.
Proof.
  induction n as [|n IH]; simpl; [reflexivity|].
  rewrite np_tile_S, IH, np_tile_app. reflexivity.
Qed.

Lemma np_tile_repeat (n m : nat) (a : A) :
  np_tile n (repeat a m) = repeat a (n * m).
Proof.
  induction n as [|n IH]; simpl; [reflexivity|].
  rewrite np_tile_S, IH, repeat_app. reflexivity.
Qed.

Lemma np_repeat_1 (l : list A) : np_repeat 1 l = l.
Proof.
  unfold np_repeat. induction l as [|a l IH]; [reflexivity|].
  simpl in *. now rewrite IH.
Qed.

(** Mapping over a [flat_map] whose pieces all map to one list tiles
    that list. *)
Lemma map_flat_map_tile (f : B -> A) (g : A -> list B) (L : list A) (l : list A) :
  (forall x, map f (g x) = L) ->
  map f (flat_map g l) = np_tile (length l) L.
Proof.
  intros H. induction l as [|a l IH]; simpl; [reflexivity|].
  rewrite map_app, H, IH. reflexivity.
Qed.

(** Mapping over a [flat_map] whose piece at [x] maps to [m] copies of
    [x] repeats every element [m] times. *)
Lemma map_flat_map_repeat (f : B -> A) (g : A -> list B) (m : nat) (l : list A) :
  (forall x, map f (g x) = repeat x m) ->
  map f (flat_map g l) = np_repeat m l.
Proof.
  intros H. unfold np_repeat. induction l as [|a l IH]; simpl; [reflexivity|].
  rewrite map_app, H, IH. reflexivity.
Qed.

Lemma map_const_repeat (c : A) (l : list B) :
  map (fun _ => c) l = repeat c (length l).
Proof. induction l as [|b l IH]; simpl; congruence. Qed.

Lemma combine_map_same {C : Type} (f : A -> B) (g : A -> C) (l : list A) :
  combine (map f l) (map g l) = map (fun x => (f x, g x)) l.
Proof. induction l as [|a l IH]; simpl; congruence. Qed.

Lemma np_mask_map (f : A -> B) (p : A -> bool) (l : list A) :
  np_mask (map f l) (map p l) = map f (filter p l).
Proof.
  unfold np_mask. induction l as [|a l IH]; simpl; [reflexivity|].
  destruct (p a); simpl; congruence.
Qed.

Lemma set_last_length (y : list A) (stop : A) :
  length (set_last y stop) = length y.
Proof.
  induction y as [|a y IH]; [reflexivity|].
  destruct y as [|b y]; [reflexivity|].
  change (S (length (set_last (b :: y) stop)) = S (length (b :: y))).
  now rewrite IH.
Qed.

Lemma set_last_In (y : list A) (stop x : A) :
  In x (set_last y stop) -> x = stop \/ In x y.
Proof.
  induction y as [|a y IH]; [contradiction|].
  destruct y as [|b y].
  - intros [H|[]]; auto.
  - change (In x (a :: set_last (b :: y) stop) -> x = stop \/ In x (a :: b :: y)).
    intros [H|H]; [right; left; exact H|].
    destruct (IH H) as [E|E]; [left; exact E|right; right; exact E].
Qed.
End ArrayFacts.

(* ================================================================== *)
(** * The composition enumerator: theorems *)

Module GridFacts.
Import Grid.
Local Open Scope float_scope.

Ltac pow_norm := cbn [Nat.pow Nat.sub]; rewrite ?Nat.mul_1_r.

(** Below the coordinate of interest: the inner loops only repeat it. *)
Ltac inner_repeat :=
  repeat (erewrite map_flat_map_tile;
          [rewrite np_tile_repeat; reflexivity | intros ?]);
  rewrite map_map; cbn [proj1 proj2 proj3 proj4 proj5];
  apply map_const_repeat.

(** Above the coordinate of interest: an outer loop tiles the array. *)
Ltac outer_tile tac :=
  etransitivity; [apply map_flat_map_tile; intros ?; tac | ].

Lemma meshgrid_axis_0 (v : list float) :
  meshgrid_axis 0 v = map proj1 (product6 v).
Proof.
  unfold meshgrid_axis, product6. pow_norm. rewrite np_tile_1.
  symmetry. apply map_flat_map_repeat. intros x1. inner_repeat.
Qed.

Lemma meshgrid_axis_1 (v : list float) :
  meshgrid_axis 1 v = map proj2 (product6 v).
Proof.
  unfold meshgrid_axis, product6. pow_norm. symmetry.
  outer_tile ltac:(apply map_flat_map_repeat; intros ?; inner_repeat).
  reflexivity.
Qed.

Lemma meshgrid_axis_2 (v : list float) :
  meshgrid_axis 2 v = map proj3 (product6 v).
Proof.
  unfold meshgrid_axis, product6. pow_norm. symmetry.
  outer_tile ltac:(outer_tile
    ltac:(apply map_flat_map_repeat; intros ?; inner_repeat);
    [reflexivity]).
  rewrite ?np_tile_tile, <- ?Nat.mul_assoc. reflexivity.
Qed.

Lemma meshgrid_axis_3 (v : list float) :
  meshgrid_axis 3 v = map proj4 (product6 v).
Proof.
  unfold meshgrid_axis, product6. pow_norm. symmetry.
  outer_tile ltac:(outer_tile ltac:(outer_tile
    ltac:(apply map_flat_map_repeat; intros ?; inner_repeat);
    [reflexivity]); [reflexivity]).
  rewrite ?np_tile_tile, <- ?Nat.mul_assoc. reflexivity.
Qed.

Lemma meshgrid_axis_4 (v : list float) :
  meshgrid_axis 4 v = map proj5 (product6 v).
Proof.
  unfold meshgrid_axis, product6. pow_norm. symmetry.
  outer_tile ltac:(outer_tile ltac:(outer_tile ltac:(outer_tile
    ltac:(apply map_flat_map_repeat; intros ?; inner_repeat);
    [reflexivity]); [reflexivity]); [reflexivity]).
  rewrite ?np_tile_tile, <- ?Nat.mul_assoc. reflexivity.
Qed.

Lemma meshgrid_axis_5 (v : list float) :
  meshgrid_axis 5 v = map proj6 (product6 v).
Proof.
  unfold meshgrid_axis, product6. pow_norm. rewrite np_repeat_1. symmetry.
  outer_tile ltac:(outer_tile ltac:(outer_tile ltac:(outer_tile
    ltac:(outer_tile ltac:(rewrite map_map; cbn [proj6]; apply map_id);
    [reflexivity]); [reflexivity]); [reflexivity]); [reflexivity]).
  rewrite ?np_tile_tile, <- ?Nat.mul_assoc. reflexivity.
Qed.

Lemma np_add_map (f g : composition -> float) (l : list composition) :
  np_add (map f l) (map g l) = map (fun c => f c + g c) l.
Proof.
  unfold np_add. rewrite combine_map_same, map_map. reflexivity.
Qed.

Lemma zip6_projections (l : list composition) :
  zip6 (map proj1 l) (map proj2 l) (map proj3 l)
       (map proj4 l) (map proj5 l) (map proj6 l) = l.
Proof.
  unfold zip6. rewrite !combine_map_same, map_map.
  rewrite <- (map_id l) at 2. apply map_ext.
  intros [[[[[x1 x2] x3] x4] x5] x6]. reflexivity.
Qed.

(** The enumerator is the filter of the Cartesian product. *)
Lemma compositions_filter (v : list float) :
  compositions v = filter sums_to_one (product6 v).
Proof.
  unfold compositions.
  rewrite meshgrid_axis_0, meshgrid_axis_1, meshgrid_axis_2,
          meshgrid_axis_3, meshgrid_axis_4, meshgrid_axis_5.
  rewrite !np_add_map. unfold np_eq_scalar. rewrite map_map.
  assert (E : forall c : composition,
             (proj1 c + proj2 c + proj3 c + proj4 c + proj5 c + proj6 c =? 1)
             = sums_to_one c)
    by (intros [[[[[x1 x2] x3] x4] x5] x6]; reflexivity).
  rewrite (map_ext _ _ E).
  rewrite !np_mask_map. apply zip6_projections.
Qed.

Lemma arange_from_length (start : Z) (num : nat) :
  length (arange_from start num) = num.
Proof.
  revert start. induction num as [|num IH]; intros start; simpl; [reflexivity|].
  now rewrite IH.
Qed.

Lemma linspace_length (start stop : float) (num : nat) :
  length (linspace start stop num) = num.
Proof.
  unfold linspace.
  destruct (1 <? num)%nat; rewrite ?set_last_length, length_map;
    destruct (0 <? num - 1)%nat; [destruct (_ =? 0)| |destruct (_ =? 0)|];
    rewrite ?length_map; apply arange_from_length.
Qed.

Lemma product6_In (v : list float) (c : composition) :
  In c (product6 v) ->
  In (proj1 c) v /\ In (proj2 c) v /\ In (proj3 c) v /\
  In (proj4 c) v /\ In (proj5 c) v /\ In (proj6 c) v.
Proof.
  unfold product6. intros H.
  apply in_flat_map in H; destruct H as (x1 & H1 & H).
  apply in_flat_map in H; destruct H as (x2 & H2 & H).
  apply in_flat_map in H; destruct H as (x3 & H3 & H).
  apply in_flat_map in H; destruct H as (x4 & H4 & H).
  apply in_flat_map in H; destruct H as (x5 & H5 & H).
  apply in_map_iff in H; destruct H as (x6 & <- & H6).
  cbn. tauto.
Qed.

Lemma meshgrid_fits_bound (N : nat) : meshgrid_fits N -> (N < 1024)%nat.
Proof.
  unfold meshgrid_fits. intros H.
  destruct (Nat.lt_ge_cases N 1024) as [Hlt|Hge]; [exact Hlt|exfalso].
  assert (Hp : (1024 ^ 6 <= Z.of_nat N ^ 6)%Z)
    by (apply Z.pow_le_mono_l; lia).
  change (1024 ^ 6)%Z with 1152921504606846976%Z in Hp.
  change (2 ^ 63)%Z with 9223372036854775808%Z in H. lia.
Qed.

Lemma grids_in_unit_interval :
  forallb grid_in_unit_interval (seq 0 1024) = true.
Proof. vm_compute. reflexivity. Qed.

Lemma grid_value_in_unit_interval (N : nat) (x : float) :
  meshgrid_fits N -> In x (v N) -> in_unit_interval x = true.
Proof.
  intros HN Hx. apply meshgrid_fits_bound in HN.
  pose proof grids_in_unit_interval as H.
  rewrite forallb_forall in H.
  assert (HNin : In N (seq 0 1024)) by (apply in_seq; lia).
  specialize (H N HNin). unfold grid_in_unit_interval in H.
  rewrite forallb_forall in H. now apply H.
Qed.

Lemma product6_In_intro (v : list float) (x1 x2 x3 x4 x5 x6 : float) :
  In x1 v -> In x2 v -> In x3 v -> In x4 v -> In x5 v -> In x6 v ->
  In (x1, x2, x3, x4, x5, x6) (product6 v).
Proof.
  intros H1 H2 H3 H4 H5 H6. unfold product6.
  apply in_flat_map. exists x1. split; [exact H1|].
  apply in_flat_map. exists x2. split; [exact H2|].
  apply in_flat_map. exists x3. split; [exact H3|].
  apply in_flat_map. exists x4. split; [exact H4|].
  apply in_flat_map. exists x5. split; [exact H5|].
  apply in_map_iff. exists x6. split; [reflexivity|exact H6].
Qed.

Lemma last_In (v : list float) (d : float) : v <> [] -> In (last v d) v.
Proof.
  induction v as [|a v IH]; [congruence|]. intros _.
  destruct v as [|b v]; [left; reflexivity|].
  right. apply IH. discriminate.
Qed.

Lemma grid_corners_sum_to_one :
  forallb grid_corner_sums_to_one (seq 2 1022) = true.
Proof. vm_compute. reflexivity. Qed.

(** For N >= 2 the enumerated grid is never empty: the last unit vector
    passes the filter. *)
Lemma enumerated_grid_nonempty (N : nat) :
  (2 <= N)%nat -> meshgrid_fits N -> compositions (v N) <> [].
Proof.
  intros H2 HN. apply meshgrid_fits_bound in HN.
  assert (Hne : v N <> []).
  { intros E. pose proof (linspace_length 0 1 N) as L.
    unfold v in E. rewrite E in L. simpl in L. lia. }
  assert (Hc : In (corner (v N)) (compositions (v N))).
  { rewrite compositions_filter. apply filter_In. split.
    - assert (Hh : In (hd 0 (v N)) (v N))
        by (destruct (v N); [congruence | left; reflexivity]).
      apply product6_In_intro; try exact Hh. now apply last_In.
    - pose proof grid_corners_sum_to_one as H.
      rewrite forallb_forall in H. apply H. apply in_seq. lia. }
  intros E. rewrite E in Hc. contradiction.
Qed.

Lemma compositions_two_point_grid :
  compositions (v 2) =
    [(0, 0, 0, 0, 0, 1); (0, 0, 0, 0, 1, 0); (0, 0, 0, 1, 0, 0);
     (0, 0, 1, 0, 0, 0); (0, 1, 0, 0, 0, 0); (1, 0, 0, 0, 0, 0)].
Proof. vm_compute. reflexivity. Qed.

Lemma compositions_one_point_grid : compositions [0] = [].
Proof. vm_compute. reflexivity. Qed.

Lemma same_floats_eq (a b : list float) : same_floats a b = true -> a = b.
Proof.
  revert b. induction a as [|x a IH]; intros [|y b] H; try discriminate.
  - reflexivity.
  - cbn [same_floats] in H. apply andb_prop in H. destruct H as [Hx Ha].
    apply FloatAxioms.Leibniz.eqb_spec in Hx. subst y.
    now rewrite (IH b Ha).
Qed.

Lemma increasing_nth (g : list float) (i : nat) :
  increasing g = true -> (S i < length g)%nat ->
  (nth i g 0 <? nth (S i) g 0) = true.
Proof.
  revert i. induction g as [|a g IH]; intros i H Hi; [simpl in Hi; lia|].
  destruct g as [|b g]; [simpl in Hi; lia|].
  change (((a <? b) && increasing (b :: g))%bool = true) in H.
  apply andb_prop in H. destruct H as [Hab Hg].
  destruct i as [|i]; [exact Hab|].
  change ((nth i (b :: g) 0 <? nth (S i) (b :: g) 0) = true).
  apply IH; [exact Hg|simpl in *; lia].
Qed.

Lemma grids_are_uniform : forallb grid_is_uniform (seq 2 1022) = true.
Proof. vm_compute. reflexivity. Qed.

Lemma grid_uniform (N : nat) :
  (2 <= N)%nat -> meshgrid_fits N -> grid_is_uniform N = true.
Proof.
  intros H2 HN. apply meshgrid_fits_bound in HN.
  pose proof grids_are_uniform as H. rewrite forallb_forall in H.
  apply H. apply in_seq. lia.
Qed.

(** C3: for every grid resolution N >= 2 (whose meshgrid numpy can
    build), [v] is the uniform N-point grid on [0, 1] (N values, the
    i-th being i times the step 1/(N-1), the first 0, the last 1,
    strictly increasing), and the enumerator yields exactly the tuples
    of the six-fold Cartesian product of that grid whose components sum
    to 1 under float64 equality, in the lexicographic order of the
    product (first axis slowest). *)
Theorem enumerator_is_filtered_product (N : nat) :
  (2 <= N)%nat -> meshgrid_fits N ->
  length (v N) = N /\
  v N = uniform_grid N /\
  hd 1 (v N) = 0 /\ last (v N) 0 = 1 /\
  (forall i, (S i < N)%nat -> (nth i (v N) 0 <? nth (S i) (v N) 0) = true) /\
  compositions (v N) = filter sums_to_one (product6 (v N)).
Proof.
  intros H2 HN.
  pose proof (grid_uniform H2 HN) as H. unfold grid_is_uniform in H.
  cbv zeta in H.
  apply andb_prop in H. destruct H as [H Hinc].
  apply andb_prop in H. destruct H as [Hsame Hhd].
  apply same_floats_eq in Hsame.
  apply FloatAxioms.Leibniz.eqb_spec in Hhd.
  pose proof (linspace_length 0 1 N) as Hlen. fold (v N) in Hlen.
  split; [exact Hlen|]. split; [exact Hsame|]. split; [exact Hhd|].
  split; [|split].
  - rewrite Hsame. unfold uniform_grid. cbv zeta. apply last_last.
  - intros i Hi. apply increasing_nth; [exact Hinc|]. now rewrite Hlen.
  - apply compositions_filter.
Qed.

Lemma enumerator_is_filtered_product_witness :
  (2 <= 3)%nat /\ meshgrid_fits 3 /\
  length (v 3) = 3%nat /\
  v 3 = uniform_grid 3 /\
  hd 1 (v 3) = 0 /\ last (v 3) 0 = 1 /\
  (forall i, (S i < 3)%nat -> (nth i (v 3) 0 <? nth (S i) (v 3) 0) = true) /\
  compositions (v 3) = filter sums_to_one (product6 (v 3)).
Proof.
  assert (H2 : (2 <= 3)%nat) by lia.
  assert (Hf : meshgrid_fits 3) by (unfold meshgrid_fits; lia).
  split; [exact H2|]. split; [exact Hf|].
  exact (@enumerator_is_filtered_product 3 H2 Hf).
Defined.

(** C4: N = 2 gives the grid [0, 1] and the six unit vectors; N = 3
    gives the grid [0, 0.5, 1] and 21 compositions. *)
Theorem enumerator_counts :
  v 2 = [0; 1] /\
  compositions (v 2) =
    [(0, 0, 0, 0, 0, 1); (0, 0, 0, 0, 1, 0); (0, 0, 0, 1, 0, 0);
     (0, 0, 1, 0, 0, 0); (0, 1, 0, 0, 0, 0); (1, 0, 0, 0, 0, 0)] /\
  length (compositions (v 2)) = 6%nat /\
  v 3 = [0; 0.5; 1] /\
  length (compositions (v 3)) = 21%nat.
Proof. vm_compute. repeat split. Qed.

(** C5: for every grid resolution N >= 2 (whose meshgrid numpy can
    build), every enumerated composition has its six components in
    [0, 1] and sums to 1, exactly, in the script's order of addition. *)
Theorem compositions_on_simplex (N : nat) (c : composition) :
  (2 <= N)%nat -> meshgrid_fits N ->
  In c (compositions (v N)) ->
  components_in_unit_interval c = true /\ sums_to_one c = true.
Proof.
  intros _ HN Hc. rewrite compositions_filter in Hc.
  apply filter_In in Hc. destruct Hc as [Hp Hs]. split; [|exact Hs].
  apply product6_In in Hp.
  destruct c as [[[[[x1 x2] x3] x4] x5] x6]. cbn in Hp.
  destruct Hp as (H1 & H2 & H3 & H4 & H5 & H6).
  unfold components_in_unit_interval.
  rewrite !(grid_value_in_unit_interval (N := N)) by assumption.
  reflexivity.
Qed.

Lemma compositions_on_simplex_witness :
  (2 <= 3)%nat /\ meshgrid_fits 3 /\
  In (0, 0.5, 0.5, 0, 0, 0) (compositions (v 3)) /\
  components_in_unit_interval (0, 0.5, 0.5, 0, 0, 0) = true /\
  sums_to_one (0, 0.5, 0.5, 0, 0, 0) = true.
Proof.
  assert (H2 : (2 <= 3)%nat) by lia.
  assert (Hf : meshgrid_fits 3) by (unfold meshgrid_fits; lia).
  assert (Hin : In (0, 0.5, 0.5, 0, 0, 0) (compositions (v 3)))
    by (vm_compute; tauto).
  split; [exact H2|]. split; [exact Hf|]. split; [exact Hin|].
  exact (@compositions_on_simplex 3 (0, 0.5, 0.5, 0, 0, 0) H2 Hf Hin).
Defined.

End GridFacts.

(* ================================================================== *)
(** * Spectra and scores: theorems *)

Module SpectralFacts.
Import Spectral.
Local Open Scope R_scope.

Section ListFacts.
Context {A B C D : Type}.



Lemma combine_map_both (f : A -> C) (g : B -> D) (a : list A) (b : list B) :
  combine (map f a) (map g b) =
  map (fun p => (f (fst p), g (snd p))) (combine a b).
Proof.
  revert b. induction a as [|x a IH]; intros [|y b]; simpl; [reflexivity..|].
  now rewrite IH.
Qed.
End ListFacts.

Lemma np_sum_scale (k : R) (l : list R) :
  np_sum (map (fun t => t / k) l) = np_sum l / k.
Proof.
  induction l as [|a l IH]; simpl.
  - unfold Rdiv. ring.
  - rewrite IH. unfold Rdiv. ring.
Qed.





Lemma example_integral : spectrum_integral [0; 1; 2] [2; 0] = 4.
Proof.
  unfold spectrum_integral, regression_values, trapezoid, np_diff, np_mul,
    np_add, np_sum, polyval. simpl. lra.
Qed.



(** ** The interpolants and the response evaluator *)

Section Evaluator.

Variables d1 d2 d3 d4 d5 d6 : list R.
Variable data : list (list R).
Variable Rbf : list R -> list R -> list R -> list R -> list R -> list R ->
               list R -> Grid.composition -> R.

Lemma fit_RBF_fold (rows : list (list R)) (k : nat) (st : state) :
  fold_left
    (fun st index_row =>
       mkState (RBF st ++ [Rbf d1 d2 d3 d4 d5 d6 (snd index_row)])
               (correlation st) (integral st) (covariance st))
    (combine (seq k (length rows)) rows) st =
  mkState (RBF st ++ map (Rbf d1 d2 d3 d4 d5 d6) rows)
          (correlation st) (integral st) (covariance st).
Proof.
  revert k st. induction rows as [|row rows IH]; intros k st.
  - simpl. rewrite app_nil_r. now destruct st.
  - cbn [length seq combine fold_left]. rewrite IH. cbn [RBF correlation integral covariance snd map].
    now rewrite <- app_assoc.
Qed.

Lemma fit_RBF_spec (st : state) :
  fit_RBF d1 d2 d3 d4 d5 d6 data Rbf st =
  mkState (RBF st ++ map (Rbf d1 d2 d3 d4 d5 d6) data)
          (correlation st) (integral st) (covariance st).
Proof. apply fit_RBF_fold. Qed.

Lemma F_loop_spec (st : state) (c : Grid.composition)
      (fs pre : list (Grid.composition -> R)) (acc : list R) :
  RBF st = pre ++ fs ->
  F_loop st c (seq (length pre) (length fs)) acc =
  Ok (acc ++ map (fun interpolation => LHE (interpolation c)) fs).
Proof.
  revert pre acc. induction fs as [|f fs IH]; intros pre acc E.
  - simpl. now rewrite app_nil_r.
  - cbn [length seq F_loop]. rewrite E, nth_error_app2 by lia.
    rewrite Nat.sub_diag. cbn [nth_error].
    replace (S (length pre)) with (length (pre ++ [f]))
      by (rewrite length_app; simpl; lia).
    rewrite IH by (now rewrite E, <- app_assoc).
    cbn [map]. now rewrite <- app_assoc.
Qed.

(** With one interpolant per row of [data], [F] returns the transformed
    prediction of every interpolant, in order. *)
Lemma F_spec (st : state) (c : Grid.composition) :
  length (RBF st) = length data ->
  F data st c = Ok (map (fun interpolation => LHE (interpolation c)) (RBF st)).
Proof.
  intros H. unfold F. rewrite <- H.
  exact (@F_loop_spec st c (RBF st) [] [] eq_refl).
Qed.

(** C7: in the state the script builds, [F] returns one value per
    wavelength row of the absorbance matrix, the value at each index
    being [1 - 10^(-a)] for the absorbance [a] that wavelength's
    interpolant predicts at the composition. *)
Theorem F_is_LHE_of_interpolants (c : Grid.composition) :
  let st := fit_RBF d1 d2 d3 d4 d5 d6 data Rbf initial_state in
  RBF st = map (Rbf d1 d2 d3 d4 d5 d6) data /\
  exists lhe,
    F data st c = Ok lhe /\
    length lhe = length data /\
    forall index interpolation,
      nth_error (RBF st) index = Some interpolation ->
      nth_error lhe index = Some (1 - Rpower 10 (- interpolation c)).
Proof.
  intros st.
  assert (E : RBF st = map (Rbf d1 d2 d3 d4 d5 d6) data)
    by (unfold st; rewrite fit_RBF_spec; reflexivity).
  split; [exact E|].
  exists (map (fun interpolation => LHE (interpolation c)) (RBF st)).
  split; [|split].
  - apply F_spec. now rewrite E, length_map.
  - now rewrite E, !length_map.
  - intros index interpolation H.
    rewrite nth_error_map, H. reflexivity.
Qed.

Lemma F_loop_reads_RBF (st st' : state) (c : Grid.composition)
      (indices : list nat) (acc : list R) :
  RBF st = RBF st' -> F_loop st c indices acc = F_loop st' c indices acc.
Proof.
  intros E. revert acc.
  induction indices as [|index rest IH]; intros acc.
  - reflexivity.
  - cbn [F_loop]. rewrite <- E.
    destruct (nth_error (RBF st) index); [apply IH | reflexivity].
Qed.

Lemma F_reads_RBF (st st' : state) (c : Grid.composition) :
  RBF st = RBF st' -> F data st c = F data st' c.
Proof. intros E. unfold F. now apply F_loop_reads_RBF. Qed.

End Evaluator.


(** ** The search loop *)

Lemma np_cov_entry01 (x y : list R) :
  entry01 (np_cov x y) = sample_covariance x y.
Proof.
  unfold entry01, np_cov, sample_covariance, np_dot, np_mul. cbn [fst snd].
  rewrite combine_map_both, map_map. cbn [fst snd].
  unfold Rdiv. now rewrite Rmult_1_l.
Qed.

Section Search.

Variable wavelength : list R.
Variable spectrum_regression : list R.
Variable data : list (list R).

Let reference : list R := regression_values wavelength spectrum_regression.

Hypothesis rows_match : length wavelength = length data.
Hypothesis two_rows : (2 <= length data)%nat.

Lemma pearsonr_reference (st : state) (c : Grid.composition) :
  length (RBF st) = length data ->
  pearsonr reference (lhe_spectrum st c) =
  Ok (pearson_r reference (lhe_spectrum st c)).
Proof.
  intros H. unfold pearsonr, reference, regression_values, lhe_spectrum.
  rewrite !length_map, H, rows_match, Nat.eqb_refl. cbn [negb].
  destruct (Nat.ltb_spec (length data) 2) as [Hlt|_]; [lia|reflexivity].
Qed.

Lemma search_step_spec (st : state) (c : Grid.composition) :
  length (RBF st) = length data ->
  search_step wavelength spectrum_regression data st c =
  Ok (mkState (RBF st)
        (correlation st ++ [pearson_r reference (lhe_spectrum st c)])
        (integral st ++ [trapezoid (lhe_spectrum st c) wavelength])
        (covariance st ++ [sample_covariance reference (lhe_spectrum st c)])).
Proof.
  intros H. unfold search_step.
  rewrite (@F_spec data st c H). cbn [bind].
  fold reference. fold (lhe_spectrum st c).
  rewrite (@pearsonr_reference st c H).
  cbn [bind RBF correlation integral covariance].
  rewrite (@F_reads_RBF data _ st c) by reflexivity.
  rewrite (@F_spec data st c H). cbn [bind RBF correlation integral covariance].
  rewrite (@F_reads_RBF data _ st c) by reflexivity.
  rewrite (@F_spec data st c H). cbn [bind].
  cbv zeta. rewrite np_cov_entry01. reflexivity.
Qed.

Lemma grid_search_spec (comps : list Grid.composition) (st : state) :
  length (RBF st) = length data ->
  grid_search wavelength spectrum_regression data st comps =
  Ok (mkState (RBF st)
        (correlation st ++
           map (fun c => pearson_r reference (lhe_spectrum st c)) comps)
        (integral st ++
           map (fun c => trapezoid (lhe_spectrum st c) wavelength) comps)
        (covariance st ++
           map (fun c => sample_covariance reference (lhe_spectrum st c)) comps)).
Proof.
  revert st. induction comps as [|c comps IH]; intros st H.
  - cbn [grid_search map]. rewrite !app_nil_r. now destruct st.
  - cbn [grid_search]. rewrite (@search_step_spec st c H). cbn [bind].
    rewrite IH by exact H.
    cbn [RBF correlation integral covariance map].
    unfold lhe_spectrum. cbn [RBF].
    now rewrite <- !app_assoc.
Qed.

End Search.


Lemma lhe_spectrum_fit (d1 d2 d3 d4 d5 d6 : list R) (data : list (list R))
      (Rbf : list R -> list R -> list R -> list R -> list R -> list R ->
             list R -> Grid.composition -> R) (c : Grid.composition) :
  lhe_spectrum (fit_RBF d1 d2 d3 d4 d5 d6 data Rbf initial_state) c =
  map (fun row => LHE (Rbf d1 d2 d3 d4 d5 d6 row c)) data.
Proof.
  unfold lhe_spectrum. rewrite fit_RBF_spec. cbn [RBF initial_state app].
  now rewrite map_map.
Qed.

(** The search loop from the state the script builds: it completes, and
    the three sequences hold one score per composition. *)
Lemma grid_search_fit (wavelength spectrum_regression : list R)
      (d1 d2 d3 d4 d5 d6 : list R) (data : list (list R))
      (Rbf : list R -> list R -> list R -> list R -> list R -> list R ->
             list R -> Grid.composition -> R)
      (comps : list Grid.composition) :
  let st := fit_RBF d1 d2 d3 d4 d5 d6 data Rbf initial_state in
  let reference := regression_values wavelength spectrum_regression in
  let lhe c := map (fun row => LHE (Rbf d1 d2 d3 d4 d5 d6 row c)) data in
  length wavelength = length data -> (2 <= length data)%nat ->
  grid_search wavelength spectrum_regression data st comps =
  Ok (mkState (RBF st)
        (map (fun c => pearson_r reference (lhe c)) comps)
        (map (fun c => trapezoid (lhe c) wavelength) comps)
        (map (fun c => sample_covariance reference (lhe c)) comps)).
Proof.
  intros st reference lhe Hrows Htwo. subst st.
  rewrite fit_RBF_spec. cbn [RBF correlation integral covariance initial_state app].
  rewrite (@grid_search_spec wavelength spectrum_regression data Hrows Htwo)
    by (cbn [RBF]; apply length_map).
  cbn [RBF correlation integral covariance app]. unfold lhe_spectrum. cbn [RBF].
  f_equal. f_equal; apply map_ext; intros c; now rewrite map_map.
Qed.

(** C1 (amended): for an absorbance table with one row per wavelength
    sample (at least two), the search loop completes and the covariance
    score appended for every enumerated composition is the off-diagonal
    entry of the 2x2 sample covariance matrix of the UNNORMALIZED
    regression values [spectrum_regression(wavelength)] and the
    composition's LHE spectrum. *)
Theorem covariance_scores (wavelength spectrum_regression : list R)
      (d1 d2 d3 d4 d5 d6 : list R) (data : list (list R))
      (Rbf : list R -> list R -> list R -> list R -> list R -> list R ->
             list R -> Grid.composition -> R)
      (comps : list Grid.composition) :
  length wavelength = length data -> (2 <= length data)%nat ->
  exists st',
    grid_search wavelength spectrum_regression data
      (fit_RBF d1 d2 d3 d4 d5 d6 data Rbf initial_state) comps = Ok st' /\
    covariance st' =
      map (fun c =>
             sample_covariance
               (regression_values wavelength spectrum_regression)
               (map (fun row => LHE (Rbf d1 d2 d3 d4 d5 d6 row c)) data))
          comps.
Proof.
  intros Hrows Htwo. eexists. split.
  - apply grid_search_fit; assumption.
  - reflexivity.
Qed.


Lemma covariance_scores_witness :
  length Example.wavelength = length Example.data /\
  (2 <= length Example.data)%nat /\
  exists st',
    grid_search Example.wavelength Example.spectrum_regression Example.data
      Example.st0 [Example.c0] = Ok st' /\
    covariance st' =
      map (fun c =>
             sample_covariance
               (regression_values Example.wavelength Example.spectrum_regression)
               (map (fun row => LHE (Example.Rbf Example.d Example.d Example.d
                                       Example.d Example.d Example.d row c))
                    Example.data))
          [Example.c0].
Proof.
  assert (Hrows : length Example.wavelength = length Example.data)
    by reflexivity.
  assert (Htwo : (2 <= length Example.data)%nat) by (simpl; lia).
  split; [exact Hrows|]. split; [exact Htwo|].
  exact (@covariance_scores Example.wavelength Example.spectrum_regression
           Example.d Example.d Example.d Example.d Example.d Example.d
           Example.data Example.Rbf [Example.c0] Hrows Htwo).
Defined.

Lemma LHE_0 : LHE 0 = 0.
Proof.
  unfold LHE. rewrite Ropp_0, Rpower_O by lra. ring.
Qed.

Lemma LHE_1 : LHE 1 = 9 / 10.
Proof.
  unfold LHE. rewrite Rpower_Ropp, Rpower_1 by lra. field.
Qed.

Lemma example_regression_values :
  regression_values Example.wavelength Example.spectrum_regression = [0; 2; 4].
Proof.
  unfold regression_values, polyval. simpl.
  repeat (f_equal; try ring).
Qed.

Lemma example_lhe :
  map (fun row => LHE (Example.Rbf Example.d Example.d Example.d
                         Example.d Example.d Example.d row Example.c0))
      Example.data = [0; 0; 9 / 10].
Proof.
  simpl. now rewrite LHE_0, LHE_1.
Qed.

Lemma example_spectrum_integral :
  spectrum_integral Example.wavelength Example.spectrum_regression = 4.
Proof. apply example_integral. Qed.

Lemma example_normal_spectrum :
  normal_spectrum Example.wavelength Example.spectrum_regression =
  [0; 1 / 2; 1].
Proof.
  unfold normal_spectrum.
  rewrite example_spectrum_integral, example_regression_values. simpl.
  repeat (f_equal; try field).
Qed.

Lemma example_covariance : sample_covariance [0; 2; 4] [0; 0; 9 / 10] = 9 / 10.
Proof.
  unfold sample_covariance, np_mean, np_sum. simpl. field.
Qed.

Lemma example_covariance_normal :
  sample_covariance [0; 1 / 2; 1] [0; 0; 9 / 10] = 9 / 40.
Proof.
  unfold sample_covariance, np_mean, np_sum. simpl. field.
Qed.

(** C1 as stated fails: in the small run the appended covariance is
    9/10, the covariance against the normalized spectrum is 9/40. *)
Lemma covariance_not_against_normal_spectrum :
  exists st',
    grid_search Example.wavelength Example.spectrum_regression Example.data
      Example.st0 [Example.c0] = Ok st' /\
    covariance st' = [9 / 10] /\
    map (fun c =>
           entry01 (np_cov
             (normal_spectrum Example.wavelength Example.spectrum_regression)
             (lhe_spectrum Example.st0 c)))
        [Example.c0] = [9 / 40] /\
    covariance st' <>
    map (fun c =>
           entry01 (np_cov
             (normal_spectrum Example.wavelength Example.spectrum_regression)
             (lhe_spectrum Example.st0 c)))
        [Example.c0].
Proof.
  assert (Hrows : length Example.wavelength = length Example.data)
    by reflexivity.
  assert (Htwo : (2 <= length Example.data)%nat) by (simpl; lia).
  assert (Hn : map (fun c =>
           entry01 (np_cov
             (normal_spectrum Example.wavelength Example.spectrum_regression)
             (lhe_spectrum Example.st0 c)))
        [Example.c0] = [9 / 40]).
  { cbn [map]. unfold Example.st0.
    rewrite np_cov_entry01, lhe_spectrum_fit, example_lhe,
      example_normal_spectrum, example_covariance_normal. reflexivity. }
  eexists. split; [|split; [|split]].
  - unfold Example.st0. apply grid_search_fit; assumption.
  - cbn [covariance map].
    now rewrite example_lhe, example_regression_values, example_covariance.
  - exact Hn.
  - rewrite Hn. cbn [covariance map].
    rewrite example_lhe, example_regression_values, example_covariance.
    intros H. injection H as H. lra.
Qed.


(** ** Pearson's r under a positive scaling of the first argument *)

Section Scaling.

Variable k : R.
Hypothesis k_pos : 0 < k.

Lemma Req_bool_scale (a b : R) : Req_bool (a / k) (b / k) = Req_bool a b.
Proof.
  unfold Req_bool.
  destruct (Req_EM_T (a / k) (b / k)) as [E|E], (Req_EM_T a b) as [E'|E'];
    try reflexivity; exfalso.
  - apply E'. apply Rmult_eq_reg_r with (/ k); [exact E|].
    apply Rinv_neq_0_compat. lra.
  - apply E. now rewrite E'.
Qed.

Lemma forallb_eq_scale (h : R) (l : list R) :
  forallb (fun a => Req_bool a (h / k)) (map (fun t => t / k) l) =
  forallb (fun a => Req_bool a h) l.
Proof.
  induction l as [|a l IH]; [reflexivity|].
  cbn [map forallb]. now rewrite Req_bool_scale, IH.
Qed.

Lemma all_equal_first_scale (x : list R) :
  all_equal_first (map (fun t => t / k) x) = all_equal_first x.
Proof.
  unfold all_equal_first. destruct x as [|h x]; [reflexivity|].
  cbn [map hd]. apply (forallb_eq_scale h (h :: x)).
Qed.

Lemma np_sign_scale (x : R) : np_sign (x / k) = np_sign x.
Proof.
  assert (Hk : 0 < / k) by now apply Rinv_0_lt_compat.
  unfold np_sign, Rdiv.
  destruct (Rlt_dec (x * / k) 0), (Rlt_dec x 0); try reflexivity;
    try (exfalso; nra).
  destruct (Req_EM_T (x * / k) 0), (Req_EM_T x 0); try reflexivity;
    exfalso; nra.
Qed.

Lemma np_mean_scale (x : list R) :
  np_mean (map (fun t => t / k) x) = np_mean x / k.
Proof.
  unfold np_mean. rewrite np_sum_scale, length_map. unfold Rdiv. ring.
Qed.

Lemma centred_scale (x : list R) :
  map (fun a => a - np_mean (map (fun t => t / k) x)) (map (fun t => t / k) x) =
  map (fun t => t / k) (map (fun a => a - np_mean x) x).
Proof.
  rewrite np_mean_scale, !map_map. apply map_ext. intros a.
  unfold Rdiv. ring.
Qed.

Lemma norm_scale (x : list R) :
  norm (map (fun t => t / k) x) = norm x / k.
Proof.
  unfold norm. rewrite map_map.
  rewrite (map_ext (fun t => t / k * (t / k)) (fun t => t * t / (k * k)))
    by (intros t; field; lra).
  rewrite <- (map_map (fun t => t * t) (fun t => t / (k * k))), np_sum_scale.
  rewrite sqrt_div_alt by nra.
  rewrite sqrt_square by lra. reflexivity.
Qed.

Lemma normalised_scale (x : list R) :
  map (fun a => a / norm (map (fun t => t / k) x)) (map (fun t => t / k) x) =
  map (fun a => a / norm x) x.
Proof.
  rewrite norm_scale, map_map. apply map_ext. intros a.
  destruct (Req_dec (norm x) 0) as [E|E].
  - rewrite E. unfold Rdiv. rewrite Rmult_0_l, Rinv_0. ring.
  - field. split; lra.
Qed.

Lemma pearson_r_scale (x y : list R) :
  pearson_r (map (fun t => t / k) x) y = pearson_r x y.
Proof.
  unfold pearson_r.
  rewrite all_equal_first_scale, length_map.
  destruct (all_equal_first x || all_equal_first y); [reflexivity|].
  destruct (length x =? 2)%nat eqn:E2.
  - apply Nat.eqb_eq in E2.
    destruct x as [|a [|b [|? ?]]]; try discriminate. cbn [map nth].
    replace (b / k - a / k) with ((b - a) / k) by (unfold Rdiv; ring).
    now rewrite np_sign_scale.
  - cbv zeta. now rewrite centred_scale, normalised_scale.
Qed.

Lemma pearsonr_scale (x y : list R) :
  pearsonr (map (fun t => t / k) x) y = pearsonr x y.
Proof.
  unfold pearsonr. now rewrite length_map, pearson_r_scale.
Qed.

End Scaling.



End SpectralFacts.


(* ================================================================== *)
(** * Result selection: theorems *)

Module SelectionFacts.
Import Spectral Selection Program.

Section Scores.

Variable score : Type.
Variable eqb gtb : score -> score -> bool.

(** [list(np.where(...))] holds one array, so the test
    [len(scores_answer) > 1] never succeeds: what is reported depends on
    [int] of that array alone. *)
Lemma answer_cases (scores : list score) :
  answer eqb gtb scores =
  match py_max gtb scores with
  | Raise e => Raise e
  | Ok m =>
      match nonzero_from 0 (map (fun s => eqb s m) scores) with
      | [i] => Ok ([[i]], BestFit i)
      | _ => Raise TypeError
      end
  end.
Proof.
  unfold answer, np_where.
  destruct (py_max gtb scores) as [m|e]; [|reflexivity].
  cbn [bind length Nat.ltb Nat.leb].
  destruct (nonzero_from 0 (map (fun s => eqb s m) scores)) as [|i [|j l]];
    reflexivity.
Qed.

Lemma answer_never_multiple (scores : list score) (r : list (list nat) * report) :
  answer eqb gtb scores = Ok r -> snd r <> MultipleBestFits.
Proof.
  rewrite answer_cases. destruct (py_max gtb scores) as [m|e]; [|discriminate].
  destruct (nonzero_from 0 (map (fun s => eqb s m) scores)) as [|i [|j l]];
    try discriminate.
  intros H. injection H as <-. discriminate.
Qed.

Lemma answer_empty : answer eqb gtb [] = Raise ValueError.
Proof. reflexivity. Qed.

Lemma max_from_repeat (s : score) (n : nat) :
  gtb s s = false -> max_from gtb s (repeat s n) = s.
Proof.
  intros H. induction n as [|n IH]; [reflexivity|].
  cbn [repeat max_from]. now rewrite H.
Qed.

Lemma nonzero_from_repeat_true (i n : nat) :
  nonzero_from i (repeat true n) = seq i n.
Proof.
  revert i. induction n as [|n IH]; intros i; [reflexivity|].
  cbn [repeat nonzero_from seq]. now rewrite IH.
Qed.

Lemma nonzero_from_repeat_false (i n : nat) :
  nonzero_from i (repeat false n) = [].
Proof.
  revert i. induction n as [|n IH]; intros i; [reflexivity|].
  cbn [repeat nonzero_from]. apply IH.
Qed.

(** Two or more equal scores and nothing else: every index attains the
    maximum, and the selection raises. *)
Lemma answer_all_tied (s : score) (n : nat) :
  gtb s s = false ->
  answer eqb gtb (repeat s (S (S n))) = Raise TypeError.
Proof.
  intros H. rewrite answer_cases.
  cbn [repeat py_max]. change (s :: repeat s n) with (repeat s (S n)).
  rewrite (max_from_repeat (S n) H).
  change (s :: repeat s (S n)) with (repeat s (S (S n))).
  rewrite map_repeat.
  destruct (eqb s s).
  - rewrite nonzero_from_repeat_true. reflexivity.
  - rewrite nonzero_from_repeat_false. reflexivity.
Qed.

End Scores.

Lemma Rgt_bool_irrefl (a : R) : Rgt_bool a a = false.
Proof.
  unfold Rgt_bool. destruct (Rlt_dec a a) as [H|_]; [|reflexivity].
  exfalso. exact (Rlt_irrefl a H).
Qed.

Lemma nan_gtb_irrefl (a : option R) : nan_gtb a a = false.
Proof. destruct a as [r|]; [apply Rgt_bool_irrefl | reflexivity]. Qed.

End SelectionFacts.

(* ================================================================== *)
(** * The whole run: theorems *)

Module ProgramFacts.
Import Spectral Selection Program.

Lemma Req_bool_refl (a : R) : Req_bool a a = true.
Proof.
  unfold Req_bool. destruct (Req_EM_T a a) as [_|H]; [reflexivity|].
  exfalso. now apply H.
Qed.

(** C2: two compositions tie for the maximum.  The answer list holds one
    index array, its length is 1, the branch that reports several best
    fits is skipped and [int] of the two-element index array raises
    [TypeError]: the tying indices are not reported.  First on the
    sequence of two equal scores, then on a run of the script with N = 2
    and absorbances that do not depend on the composition (all six
    compositions tie). *)
Theorem tied_maximum_raises :
  answer nan_eqb nan_gtb [Some 1%R; Some 1%R] = Raise TypeError /\
  answer Req_bool Rgt_bool [1%R; 1%R] = Raise TypeError /\
  search_and_select Example.wavelength Example.spectrum_regression
    Example.d Example.d Example.d Example.d Example.d Example.d
    Example.data Example.Rbf (Grid.v 2) = Raise TypeError.
Proof.
  split; [|split].
  - apply (@SelectionFacts.answer_all_tied _ nan_eqb nan_gtb (Some 1%R) 0).
    apply SelectionFacts.nan_gtb_irrefl.
  - apply (@SelectionFacts.answer_all_tied _ Req_bool Rgt_bool 1%R 0).
    apply SelectionFacts.Rgt_bool_irrefl.
  - unfold search_and_select.
    rewrite GridFacts.compositions_two_point_grid.
    rewrite SpectralFacts.grid_search_fit by (simpl; lia).
    cbn [bind]. unfold correlation_answer. cbn [correlation map].
    set (X := pearson_r
                (regression_values Example.wavelength Example.spectrum_regression)
                (map (fun row => LHE (hd 0%R row)) Example.data)).
    match goal with
    | |- context [answer nan_eqb nan_gtb ?l] => change l with (repeat X 6)
    end.
    rewrite (@SelectionFacts.answer_all_tied _ nan_eqb nan_gtb X 4)
      by apply SelectionFacts.nan_gtb_irrefl.
    reflexivity.
Qed.

Section EmptyGrid.

Variable wavelength : list R.
Variable spectrum_regression : list R.
Variables d1 d2 d3 d4 d5 d6 : list R.
Variable data : list (list R).
Variable Rbf : list R -> list R -> list R -> list R -> list R -> list R ->
               list R -> Grid.composition -> R.

Let st0 : state := fit_RBF d1 d2 d3 d4 d5 d6 data Rbf initial_state.

Lemma fitted_state_sequences :
  correlation st0 = [] /\ integral st0 = [] /\ covariance st0 = [].
Proof.
  unfold st0. rewrite SpectralFacts.fit_RBF_spec. repeat split.
Qed.

End EmptyGrid.








End ProgramFacts.

(* ================================================================== *)
(** * More on the composition enumerator *)

Module GridMore.
Import Grid GridFacts.
Local Open Scope float_scope.

Lemma condition_spec (v : list float) :
  condition v = map sums_to_one (product6 v).
Proof.
  unfold condition.
  rewrite meshgrid_axis_0, meshgrid_axis_1, meshgrid_axis_2,
          meshgrid_axis_3, meshgrid_axis_4, meshgrid_axis_5.
  rewrite !np_add_map. unfold np_eq_scalar. rewrite map_map.
  apply map_ext. intros [[[[[x1 x2] x3] x4] x5] x6]. reflexivity.
Qed.

Lemma V_projection (k : nat) (p : composition -> float) (v : list float) :
  meshgrid_axis k v = map p (product6 v) ->
  V k v = map p (compositions v).
Proof.
  intros H. unfold V.
  now rewrite H, condition_spec, np_mask_map, compositions_filter.
Qed.

Lemma V_0 (v : list float) : V 0 v = map proj1 (compositions v).
Proof. apply V_projection, meshgrid_axis_0. Qed.
Lemma V_1 (v : list float) : V 1 v = map proj2 (compositions v).
Proof. apply V_projection, meshgrid_axis_1. Qed.
Lemma V_2 (v : list float) : V 2 v = map proj3 (compositions v).
Proof. apply V_projection, meshgrid_axis_2. Qed.
Lemma V_3 (v : list float) : V 3 v = map proj4 (compositions v).
Proof. apply V_projection, meshgrid_axis_3. Qed.
Lemma V_4 (v : list float) : V 4 v = map proj5 (compositions v).
Proof. apply V_projection, meshgrid_axis_4. Qed.
Lemma V_5 (v : list float) : V 5 v = map proj6 (compositions v).
Proof. apply V_projection, meshgrid_axis_5. Qed.

(** X1: the six masked arrays are the six coordinates of the zipped
    compositions; in particular all of them have [len(V1)] elements, the
    number of compositions the script prints, and [zip] drops nothing. *)
Theorem masked_arrays_are_projections (v : list float) :
  compositions v = zip6 (V 0 v) (V 1 v) (V 2 v) (V 3 v) (V 4 v) (V 5 v) /\
  V 0 v = map proj1 (compositions v) /\ V 1 v = map proj2 (compositions v) /\
  V 2 v = map proj3 (compositions v) /\ V 3 v = map proj4 (compositions v) /\
  V 4 v = map proj5 (compositions v) /\ V 5 v = map proj6 (compositions v) /\
  forall k, (k < 6)%nat -> length (V k v) = length (compositions v).
Proof.
  split; [reflexivity|].
  split; [exact (V_0 v)|]. split; [exact (V_1 v)|].
  split; [exact (V_2 v)|]. split; [exact (V_3 v)|].
  split; [exact (V_4 v)|]. split; [exact (V_5 v)|].
  intros k Hk.
  destruct k as [|[|[|[|[|[|k]]]]]]; [| | | | | |lia].
  - rewrite V_0. apply length_map.
  - rewrite V_1. apply length_map.
  - rewrite V_2. apply length_map.
  - rewrite V_3. apply length_map.
  - rewrite V_4. apply length_map.
  - rewrite V_5. apply length_map.
Qed.

Lemma fractions_at_nth (v : list float) (a : nat) :
  fractions_at v a =
  match nth_error (compositions v) a with
  | Some c => Ok c
  | None => Raise IndexError
  end.
Proof.
  unfold fractions_at. rewrite V_0, V_1, V_2, V_3, V_4, V_5.
  rewrite !nth_error_map.
  destruct (nth_error (compositions v) a) as [c|]; [|reflexivity].
  destruct c as [[[[[x1 x2] x3] x4] x5] x6]. reflexivity.
Qed.

(** X2: the fractions printed for an index are the composition the
    search loop visited at that index; the lookup raises [IndexError]
    exactly when the index is past the last composition. *)
Theorem fractions_at_spec (v : list float) (a : nat) :
  fractions_at v a =
  match nth_error (compositions v) a with
  | Some c => Ok c
  | None => Raise IndexError
  end.
Proof. apply fractions_at_nth. Qed.

Lemma set_last_last {A : Type} (y : list A) (stop d : A) :
  y <> [] -> last (set_last y stop) d = stop.
Proof.
  induction y as [|a y IH]; [congruence|]. intros _.
  destruct y as [|b y]; [reflexivity|].
  change (last (a :: set_last (b :: y) stop) d = stop).
  assert (H : set_last (b :: y) stop <> [])
    by (intros E; apply (f_equal (@length A)) in E;
        rewrite set_last_length in E; discriminate).
  destruct (set_last (b :: y) stop) as [|c l] eqn:E; [congruence|].
  change (last (c :: l) d = stop). apply IH. discriminate.
Qed.

(** X3: [linspace] returns [num] samples and, for [num >= 2], its last
    sample is [stop] itself, not a rounded [start + (num-1)*step]. *)
Theorem linspace_endpoint (start stop : float) (num : nat) :
  (2 <= num)%nat ->
  length (linspace start stop num) = num /\
  last (linspace start stop num) 0 = stop.
Proof.
  intros H. split; [apply linspace_length|].
  pose proof (linspace_length start stop num) as L.
  unfold linspace in *.
  destruct (Nat.ltb_spec 1 num) as [_|Hn]; [|lia].
  rewrite set_last_length in L.
  apply set_last_last. intros E. rewrite E in L. simpl in L. lia.
Qed.

Lemma linspace_endpoint_witness :
  (2 <= 11)%nat /\
  length (linspace 0 1 11) = 11%nat /\ last (linspace 0 1 11) 0 = 1.
Proof.
  assert (H : (2 <= 11)%nat) by lia.
  split; [exact H|]. exact (@linspace_endpoint 0 1 11 H).
Defined.

Lemma grid_11 :
  v 11 = [0; 0x1.999999999999ap-4; 0x1.999999999999ap-3;
          0x1.3333333333334p-2; 0x1.999999999999ap-2; 0.5;
          0x1.3333333333334p-1; 0x1.6666666666667p-1;
          0x1.999999999999ap-1; 0x1.ccccccccccccdp-1; 1].
Proof. vm_compute. reflexivity. Qed.

(** X4: with the script's N = 11 the float64 filter loses grid points.
    3003 index tuples add up to N - 1, the enumeration holds 2568
    compositions, and it is not closed under exchanging constituents:
    the blend with fractions [v[1], v[2], v[7]] (0.1, 0.2, 0.7) of the
    first three dyes is enumerated, the blend with [v[7], v[2], v[1]] is
    not. *)
Theorem enumeration_loses_grid_points :
  let g := v 11 in
  simplex_points 6 11 10 = 3003%nat /\
  length (compositions g) = 2568%nat /\
  In (nth 1 g 0, nth 2 g 0, nth 7 g 0, 0, 0, 0) (compositions g) /\
  ~ In (nth 7 g 0, nth 2 g 0, nth 1 g 0, 0, 0, 0) (compositions g).
Proof.
  intros g. unfold g.
  split; [vm_compute; reflexivity|].
  split; [vm_compute; reflexivity|].
  rewrite !compositions_filter. split.
  - apply filter_In. split; [|vm_compute; reflexivity].
    rewrite grid_11. apply product6_In_intro; simpl; tauto.
  - intros H. apply filter_In in H. destruct H as [_ H].
    vm_compute in H. discriminate.
Qed.

End GridMore.

(* ================================================================== *)
(** * More on the response evaluator *)

Module EvaluatorMore.
Import Spectral SpectralFacts.
Local Open Scope R_scope.

Lemma skipn_nth_error {A : Type} (l : list A) (k : nat) (x : A) :
  nth_error l k = Some x -> skipn k l = x :: skipn (S k) l.
Proof.
  revert k. induction l as [|a l IH]; intros [|k] H; try discriminate.
  - injection H as ->. reflexivity.
  - cbn [nth_error] in H. cbn [skipn]. rewrite (IH k H). reflexivity.
Qed.

Lemma F_loop_total (st : state) (c : Grid.composition) (m k : nat)
      (acc : list R) :
  (k <= length (RBF st))%nat ->
  F_loop st c (seq k m) acc =
  if (k + m <=? length (RBF st))%nat
  then Ok (acc ++ map (fun interpolation => LHE (interpolation c))
                      (firstn m (skipn k (RBF st))))
  else Raise IndexError.
Proof.
  revert k acc. induction m as [|m IH]; intros k acc Hk.
  - cbn [seq F_loop firstn map]. rewrite app_nil_r.
    destruct (Nat.leb_spec (k + 0) (length (RBF st))) as [H|H];
      [reflexivity|lia].
  - cbn [seq F_loop].
    destruct (nth_error (RBF st) k) as [f|] eqn:E.
    + assert (Hlt : (k < length (RBF st))%nat)
        by (apply nth_error_Some; congruence).
      rewrite IH by lia. replace (S k + m)%nat with (k + S m)%nat by lia.
      destruct (k + S m <=? length (RBF st))%nat; [|reflexivity].
      rewrite (skipn_nth_error _ _ E). cbn [firstn map].
      now rewrite <- app_assoc.
    + apply nth_error_None in E.
      destruct (Nat.leb_spec (k + S m) (length (RBF st))) as [H|H];
        [lia|reflexivity].
Qed.

(** X5: what [F] does in any state.  With at least one interpolant per
    row of [data] it returns the transformed predictions of the first
    [len(data)] interpolants (further interpolants are ignored); with
    fewer it raises [IndexError], and it raises nothing else. *)
Theorem F_total (data : list (list R)) (st : state) (c : Grid.composition) :
  F data st c =
  if (length data <=? length (RBF st))%nat
  then Ok (map (fun interpolation => 1 - Rpower 10 (- interpolation c))
               (firstn (length data) (RBF st)))
  else Raise IndexError.
Proof.
  unfold F. rewrite F_loop_total by lia. reflexivity.
Qed.

End EvaluatorMore.

(* ================================================================== *)
(** * More on the scores *)

Module ScoresMore.
Import Spectral SpectralFacts.
Local Open Scope R_scope.


Section Search.

Variables wavelength spectrum_regression : list R.
Variables d1 d2 d3 d4 d5 d6 : list R.
Variable data : list (list R).
Variable Rbf : list R -> list R -> list R -> list R -> list R -> list R ->
               list R -> Grid.composition -> R.

Let st0 : state := fit_RBF d1 d2 d3 d4 d5 d6 data Rbf initial_state.
Let reference : list R := regression_values wavelength spectrum_regression.
Let lhe (c : Grid.composition) : list R :=
  map (fun row => LHE (Rbf d1 d2 d3 d4 d5 d6 row c)) data.

(** X9: with one absorbance row per wavelength sample (at least two) the
    search completes and the integral score it appends for every
    composition is [trapezoid(F(...), wavelength)], the trapezoidal
    integral of that composition's LHE spectrum over the wavelength
    grid, in the order of the enumeration. *)
Theorem integral_scores (comps : list Grid.composition) :
  length wavelength = length data -> (2 <= length data)%nat ->
  exists st',
    grid_search wavelength spectrum_regression data st0 comps = Ok st' /\
    integral st' = map (fun c => trapezoid (lhe c) wavelength) comps.
Proof.
  intros Hrows Htwo. eexists. split.
  - unfold st0. apply grid_search_fit; assumption.
  - reflexivity.
Qed.

Lemma np_sign_cases (x : R) : np_sign x = -1 \/ np_sign x = 0 \/ np_sign x = 1.
Proof.
  unfold np_sign. destruct (Rlt_dec x 0); [tauto|].
  destruct (Req_EM_T x 0); tauto.
Qed.

Lemma pearson_r_range (x y : list R) (r : R) :
  pearson_r x y = Some r -> -1 <= r <= 1.
Proof.
  unfold pearson_r.
  destruct (all_equal_first x || all_equal_first y); [discriminate|].
  destruct (length x =? 2)%nat; intros H; injection H as <-.
  - destruct (np_sign_cases (nth 1 x 0 - nth 0 x 0)) as [->|[->| ->]],
             (np_sign_cases (nth 1 y 0 - nth 0 y 0)) as [->|[->| ->]]; lra.
  - split; [apply Rmax_r|].
    apply Rmax_lub; [apply Rmin_r|lra].
Qed.

(** X10: every correlation score the search appends is [nan] or lies in
    [-1, 1]. *)
Theorem correlation_scores_range (comps : list Grid.composition) :
  length wavelength = length data -> (2 <= length data)%nat ->
  exists st',
    grid_search wavelength spectrum_regression data st0 comps = Ok st' /\
    Forall (fun s => match s with
                     | None => True
                     | Some r => -1 <= r <= 1
                     end) (correlation st').
Proof.
  intros Hrows Htwo. eexists. split.
  - unfold st0. apply grid_search_fit; assumption.
  - cbn [correlation]. apply Forall_map, Forall_forall. intros c _.
    destruct (pearson_r _ _) as [r|] eqn:E; [|exact I].
    exact (pearson_r_range _ _ E).
Qed.

Lemma st0_RBF_length : length (RBF st0) = length data.
Proof.
  unfold st0. rewrite fit_RBF_spec. cbn [RBF initial_state app].
  apply length_map.
Qed.

(** X11: when the absorbance table does not have one row per wavelength
    sample, or has fewer than two rows, the first round of the search
    loop raises [ValueError] (from [pearsonr]) and no score is kept. *)
Theorem grid_search_shape_error (c : Grid.composition)
        (comps : list Grid.composition) :
  length wavelength <> length data \/ (length data < 2)%nat ->
  grid_search wavelength spectrum_regression data st0 (c :: comps)
  = Raise ValueError.
Proof.
  intros H. cbn [grid_search]. unfold search_step.
  rewrite (@F_spec data st0 c st0_RBF_length). cbn [bind].
  unfold pearsonr, regression_values. rewrite !length_map, st0_RBF_length.
  destruct (Nat.eqb_spec (length wavelength) (length data)) as [E|E];
    cbn [negb]; [|reflexivity].
  destruct (Nat.ltb_spec (length wavelength) 2) as [Hlt|Hge]; [reflexivity|].
  destruct H as [H|H]; [contradiction|lia].
Qed.

End Search.

Lemma search_step_appends (wavelength spectrum_regression : list R)
      (data : list (list R)) (st st' : state) (c : Grid.composition) :
  search_step wavelength spectrum_regression data st c = Ok st' ->
  RBF st' = RBF st /\
  exists corr integ cov,
    correlation st' = correlation st ++ [corr] /\
    integral st' = integral st ++ [integ] /\
    covariance st' = covariance st ++ [cov].
Proof.
  unfold search_step.
  destruct (F data st c) as [lhe1|e]; [|discriminate]. cbn [bind].
  destruct (pearsonr _ lhe1) as [corr|e]; [|discriminate]. cbn [bind].
  destruct (F data _ c) as [lhe2|e]; [|discriminate]. cbn [bind].
  destruct (F data _ c) as [lhe3|e]; [|discriminate]. cbn [bind].
  intros H. injection H as <-. cbn [RBF correlation integral covariance].
  split; [reflexivity|]. do 3 eexists. repeat split.
Qed.

Lemma grid_search_lengths (wavelength spectrum_regression : list R)
        (data : list (list R)) (comps : list Grid.composition)
        (st st' : state) :
  grid_search wavelength spectrum_regression data st comps = Ok st' ->
  RBF st' = RBF st /\
  length (correlation st') = (length (correlation st) + length comps)%nat /\
  length (integral st') = (length (integral st) + length comps)%nat /\
  length (covariance st') = (length (covariance st) + length comps)%nat.
Proof.
  revert st. induction comps as [|c comps IH]; intros st H.
  - cbn [grid_search] in H. injection H as <-. cbn [length].
    split; [reflexivity|]. lia.
  - cbn [grid_search] in H.
    destruct (search_step wavelength spectrum_regression data st c)
      as [st1|e] eqn:E; [|discriminate].
    cbn [bind] in H. apply IH in H.
    apply search_step_appends in E.
    destruct E as (ER & corr & integ & cov & Ec & Ei & Ev).
    destruct H as (HR & Hc & Hi & Hv).
    rewrite Ec, Ei, Ev, ER in *. rewrite !length_app in *.
    cbn [length] in *. repeat split; [assumption|lia..].
Qed.

Lemma grid_search_appends (wavelength spectrum_regression : list R)
      (data : list (list R)) (comps : list Grid.composition)
      (st st' : state) :
  grid_search wavelength spectrum_regression data st comps = Ok st' ->
  RBF st' = RBF st /\
  exists corrs integs covs,
    correlation st' = correlation st ++ corrs /\
    integral st' = integral st ++ integs /\
    covariance st' = covariance st ++ covs /\
    length corrs = length comps /\
    length integs = length comps /\
    length covs = length comps.
Proof.
  revert st. induction comps as [|c comps IH]; intros st H.
  - cbn [grid_search] in H. injection H as <-. split; [reflexivity|].
    exists [], [], []. rewrite !app_nil_r. repeat split.
  - cbn [grid_search] in H.
    destruct (search_step wavelength spectrum_regression data st c)
      as [st1|e] eqn:E; [|discriminate].
    cbn [bind] in H. apply IH in H.
    apply search_step_appends in E.
    destruct E as (ER & corr & integ & cov & Ec & Ei & Ev).
    destruct H as (HR & corrs & integs & covs & Hc & Hi & Hv & Lc & Li & Lv).
    split; [congruence|].
    exists (corr :: corrs), (integ :: integs), (cov :: covs).
    rewrite Hc, Hi, Hv, Ec, Ei, Ev, <- !app_assoc. cbn [app length].
    repeat split; congruence.
Qed.

(** X12: whenever the search loop completes, from any state, it has left
    the interpolants untouched, has kept every score the three sequences
    held before, and has appended to each of them exactly one score per
    composition: the sequences stay parallel to the enumeration. *)
Theorem grid_search_parallel (wavelength spectrum_regression : list R)
        (data : list (list R)) (comps : list Grid.composition)
        (st st' : state) :
  grid_search wavelength spectrum_regression data st comps = Ok st' ->
  RBF st' = RBF st /\
  exists corrs integs covs,
    correlation st' = correlation st ++ corrs /\
    integral st' = integral st ++ integs /\
    covariance st' = covariance st ++ covs /\
    length corrs = length comps /\
    length integs = length comps /\
    length covs = length comps.
Proof. apply grid_search_appends. Qed.


Lemma correlation_scores_range_witness :
  length Example.wavelength = length Example.data /\
  (2 <= length Example.data)%nat /\
  exists st',
    grid_search Example.wavelength Example.spectrum_regression Example.data
      Example.st0 [Example.c0] = Ok st' /\
    Forall (fun s => match s with
                     | None => True
                     | Some r => -1 <= r <= 1
                     end) (correlation st').
Proof.
  assert (Hrows : length Example.wavelength = length Example.data)
    by reflexivity.
  assert (Htwo : (2 <= length Example.data)%nat) by (simpl; lia).
  split; [exact Hrows|]. split; [exact Htwo|].
  exact (@correlation_scores_range Example.wavelength
           Example.spectrum_regression Example.d Example.d Example.d
           Example.d Example.d Example.d Example.data Example.Rbf
           [Example.c0] Hrows Htwo).
Defined.

Lemma grid_search_shape_error_witness :
  (length Example.wavelength <> length [[0]] \/ (length [[0]] < 2)%nat) /\
  grid_search Example.wavelength Example.spectrum_regression [[0]]
    (fit_RBF Example.d Example.d Example.d Example.d Example.d Example.d
       [[0]] Example.Rbf initial_state)
    [Example.c0] = Raise ValueError.
Proof.
  assert (H : length Example.wavelength <> length [[0]]
              \/ (length [[0]] < 2)%nat) by (right; simpl; lia).
  split; [exact H|].
  exact (@grid_search_shape_error Example.wavelength
           Example.spectrum_regression Example.d Example.d Example.d
           Example.d Example.d Example.d [[0]] Example.Rbf
           Example.c0 [] H).
Defined.

Lemma example_search :
  exists st',
    grid_search Example.wavelength Example.spectrum_regression Example.data
      Example.st0 [Example.c0] = Ok st'.
Proof.
  eexists. unfold Example.st0. apply grid_search_fit; [reflexivity|simpl; lia].
Qed.

Lemma integral_scores_witness :
  length Example.wavelength = length Example.data /\
  (2 <= length Example.data)%nat /\
  exists st',
    grid_search Example.wavelength Example.spectrum_regression Example.data
      Example.st0 [Example.c0] = Ok st' /\
    integral st' =
      map (fun c =>
             trapezoid
               (map (fun row => LHE (Example.Rbf Example.d Example.d Example.d
                                       Example.d Example.d Example.d row c))
                    Example.data)
               Example.wavelength) [Example.c0].
Proof.
  assert (Hrows : length Example.wavelength = length Example.data)
    by reflexivity.
  assert (Htwo : (2 <= length Example.data)%nat) by (simpl; lia).
  split; [exact Hrows|]. split; [exact Htwo|].
  exact (@integral_scores Example.wavelength
           Example.spectrum_regression Example.d Example.d Example.d
           Example.d Example.d Example.d Example.data Example.Rbf
           [Example.c0] Hrows Htwo).
Defined.

Lemma grid_search_parallel_witness :
  exists st',
    grid_search Example.wavelength Example.spectrum_regression Example.data
      Example.st0 [Example.c0] = Ok st' /\
    RBF st' = RBF Example.st0 /\
    exists corrs integs covs,
      correlation st' = correlation Example.st0 ++ corrs /\
      integral st' = integral Example.st0 ++ integs /\
      covariance st' = covariance Example.st0 ++ covs /\
      length corrs = length [Example.c0] /\
      length integs = length [Example.c0] /\
      length covs = length [Example.c0].
Proof.
  destruct example_search as [st' H]. exists st'. split; [exact H|].
  exact (@grid_search_parallel Example.wavelength Example.spectrum_regression
           Example.data [Example.c0] Example.st0 st' H).
Defined.

End ScoresMore.

(* ================================================================== *)
(** * More on result selection *)

Module SelectionMore.
Import Spectral Selection SelectionFacts.
Local Open Scope R_scope.

Section Scores.

Variable score : Type.
Variable eqb gtb : score -> score -> bool.

Lemma nonzero_from_In (cond : list bool) (k i : nat) :
  In i (nonzero_from k cond) <->
  exists j, i = (k + j)%nat /\ nth_error cond j = Some true.
Proof.
  revert k. induction cond as [|b cond IH]; intros k.
  - cbn [nonzero_from]. split; [contradiction|].
    intros (j & _ & H). destruct j; discriminate.
  - cbn [nonzero_from]. split.
    + intros H.
      assert (Hrest : In i (nonzero_from (S k) cond) ->
                      exists j, i = (k + j)%nat /\
                                nth_error (b :: cond) j = Some true).
      { intros Hin. apply IH in Hin. destruct Hin as (j & -> & Hj).
        exists (S j). split; [lia|exact Hj]. }
      destruct b; [|now apply Hrest].
      destruct H as [<-|H]; [|now apply Hrest].
      exists 0%nat. split; [lia|reflexivity].
    + intros (j & -> & Hj). destruct j as [|j].
      * cbn [nth_error] in Hj. injection Hj as ->. left. lia.
      * cbn [nth_error] in Hj.
        assert (Hin : In (k + S j)%nat (nonzero_from (S k) cond))
          by (apply IH; exists j; split; [lia|exact Hj]).
        destruct b; [right|]; exact Hin.
Qed.

Lemma nonzero_from_app (a b : list bool) (k : nat) :
  nonzero_from k (a ++ b) =
  nonzero_from k a ++ nonzero_from (k + length a) b.
Proof.
  revert k. induction a as [|x a IH]; intros k.
  - cbn [app nonzero_from length]. now rewrite Nat.add_0_r.
  - cbn [app nonzero_from length]. rewrite IH.
    replace (S k + length a)%nat with (k + S (length a))%nat by lia.
    now destruct x.
Qed.

Lemma nonzero_from_all_false (cond : list bool) (k : nat) :
  Forall (fun b => b = false) cond -> nonzero_from k cond = [].
Proof.
  intros H. revert k. induction H as [|b cond Hb _ IH]; intros k.
  - reflexivity.
  - cbn [nonzero_from]. rewrite Hb. apply IH.
Qed.

(** What a completed selection tells. *)
Lemma answer_sound (scores : list score) (r : list (list nat) * report) :
  answer eqb gtb scores = Ok r ->
  exists a m s,
    r = ([[a]], BestFit a) /\
    py_max gtb scores = Ok m /\
    nth_error scores a = Some s /\ eqb s m = true /\
    forall j s', nth_error scores j = Some s' -> eqb s' m = true -> j = a.
Proof.
  rewrite answer_cases.
  destruct (py_max gtb scores) as [m|e]; [|discriminate].
  destruct (nonzero_from 0 (map (fun s => eqb s m) scores))
    as [|a [|b l]] eqn:E; try discriminate.
  intros H. injection H as <-.
  assert (Hin : forall i, In i [a] <->
                  exists j, i = (0 + j)%nat /\
                    nth_error (map (fun s => eqb s m) scores) j = Some true)
    by (intros i; rewrite <- E; apply nonzero_from_In).
  destruct (proj1 (Hin a) (or_introl eq_refl)) as (j & Hj & Ha).
  cbn [Nat.add] in Hj. subst j. rewrite nth_error_map in Ha.
  destruct (nth_error scores a) as [s|] eqn:Es; [|discriminate].
  cbn [option_map] in Ha. injection Ha as Ha.
  exists a, m, s. repeat split; try assumption; try reflexivity.
  intros j s' Hj Hs'.
  assert (Hj' : In j [a]).
  { apply Hin. exists j. split; [reflexivity|].
    rewrite nth_error_map, Hj. cbn [option_map]. now rewrite Hs'. }
  destruct Hj' as [<-|[]]. reflexivity.
Qed.

(** X14: a selection that completes reports one index, never "multiple
    best fits": the index is in range, its score compares equal to the
    maximum, and no other index has such a score. *)
Theorem answer_reports_the_only_maximum
        (scores : list score) (r : list (list nat) * report) :
  answer eqb gtb scores = Ok r ->
  exists a m s,
    r = ([[a]], BestFit a) /\
    py_max gtb scores = Ok m /\
    nth_error scores a = Some s /\ eqb s m = true /\
    forall j s', nth_error scores j = Some s' -> eqb s' m = true -> j = a.
Proof. apply answer_sound. Qed.

End Scores.

Lemma Req_bool_lt (a m : R) : a < m -> Req_bool a m = false.
Proof.
  intros H. unfold Req_bool. destruct (Req_EM_T a m) as [E|_]; [lra|reflexivity].
Qed.

Lemma Rgt_bool_lt (a m : R) : a < m -> Rgt_bool a m = false.
Proof.
  intros H. unfold Rgt_bool. destruct (Rlt_dec m a) as [E|_]; [lra|reflexivity].
Qed.

Lemma Rgt_bool_gt (a m : R) : a < m -> Rgt_bool m a = true.
Proof.
  intros H. unfold Rgt_bool. destruct (Rlt_dec a m) as [_|E]; [reflexivity|lra].
Qed.

Lemma max_from_below (m : R) (l : list R) :
  Forall (fun s => s < m) l -> max_from Rgt_bool m l = m.
Proof.
  intros H. induction H as [|s l Hs _ IH]; [reflexivity|].
  cbn [max_from]. now rewrite (Rgt_bool_lt Hs).
Qed.

Lemma max_from_reaches (m x : R) (pre post : list R) :
  x < m -> Forall (fun s => s < m) pre -> Forall (fun s => s < m) post ->
  max_from Rgt_bool x (pre ++ m :: post) = m.
Proof.
  intros Hx Hpre. revert x Hx.
  induction Hpre as [|s pre Hs _ IH]; intros x Hx Hpost.
  - cbn [app max_from]. rewrite (Rgt_bool_gt Hx). now apply max_from_below.
  - cbn [app max_from]. apply IH; [|exact Hpost].
    now destruct (Rgt_bool s x).
Qed.

Lemma py_max_strict (m : R) (pre post : list R) :
  Forall (fun s => s < m) pre -> Forall (fun s => s < m) post ->
  py_max Rgt_bool (pre ++ m :: post) = Ok m.
Proof.
  intros Hpre Hpost. destruct pre as [|x pre].
  - cbn [app py_max]. now rewrite max_from_below.
  - inversion Hpre; subst. cbn [app py_max].
    now rewrite max_from_reaches.
Qed.

Lemma eq_mask_below (m : R) (l : list R) :
  Forall (fun s => s < m) l ->
  Forall (fun b => b = false) (map (fun s => Req_bool s m) l).
Proof.
  intros H. apply Forall_map. apply Forall_impl with (2 := H).
  intros s. apply Req_bool_lt.
Qed.

Lemma answer_strict_maximum (m : R) (pre post : list R) :
  Forall (fun s => s < m) pre -> Forall (fun s => s < m) post ->
  answer Req_bool Rgt_bool (pre ++ m :: post) =
  Ok ([[length pre]], BestFit (length pre)).
Proof.
  intros Hpre Hpost. rewrite answer_cases, py_max_strict by assumption.
  rewrite map_app. cbn [map]. rewrite nonzero_from_app. cbn [nonzero_from].
  rewrite ProgramFacts.Req_bool_refl.
  rewrite !nonzero_from_all_false by now apply eq_mask_below.
  rewrite length_map. reflexivity.
Qed.

Lemma answer_reports_the_only_maximum_witness :
  answer Req_bool Rgt_bool ([1] ++ 3 :: [2]) = Ok ([[1%nat]], BestFit 1) /\
  exists a m s,
    ([[1%nat]], BestFit 1) = ([[a]], BestFit a) /\
    py_max Rgt_bool ([1] ++ 3 :: [2]) = Ok m /\
    nth_error ([1] ++ 3 :: [2]) a = Some s /\ Req_bool s m = true /\
    forall j s', nth_error ([1] ++ 3 :: [2]) j = Some s' ->
                 Req_bool s' m = true -> j = a.
Proof.
  assert (H : answer Req_bool Rgt_bool ([1] ++ 3 :: [2])
              = Ok ([[1%nat]], BestFit 1))
    by (apply (@answer_strict_maximum 3 [1] [2]); repeat constructor; lra).
  split; [exact H|].
  exact (@answer_reports_the_only_maximum R Req_bool Rgt_bool
           ([1] ++ 3 :: [2]) ([[1%nat]], BestFit 1) H).
Defined.

(** X15: when one integral (or covariance) score is strictly above all
    the others, the selection reports the index of that score. *)
Theorem strict_maximum_is_reported (m : R) (pre post : list R)
        (interpolants : list (Grid.composition -> R))
        (corr : list (option R)) (other : list R) :
  Forall (fun s => s < m) pre -> Forall (fun s => s < m) post ->
  integral_answer (mkState interpolants corr (pre ++ m :: post) other)
  = Ok ([[length pre]], BestFit (length pre)) /\
  covariance_answer (mkState interpolants corr other (pre ++ m :: post))
  = Ok ([[length pre]], BestFit (length pre)).
Proof.
  intros Hpre Hpost.
  split; unfold integral_answer, covariance_answer;
    cbn [integral covariance]; now apply answer_strict_maximum.
Qed.

Lemma strict_maximum_is_reported_witness :
  Forall (fun s => s < 3) [1] /\ Forall (fun s => s < 3) [2] /\
  integral_answer (mkState [] [] ([1] ++ 3 :: [2]) [])
  = Ok ([[length [1]]], BestFit (length [1])) /\
  covariance_answer (mkState [] [] [] ([1] ++ 3 :: [2]))
  = Ok ([[length [1]]], BestFit (length [1])).
Proof.
  assert (H1 : Forall (fun s => s < 3) [1]) by (repeat constructor; lra).
  assert (H2 : Forall (fun s => s < 3) [2]) by (repeat constructor; lra).
  split; [exact H1|]. split; [exact H2|].
  exact (@strict_maximum_is_reported 3 [1] [2] [] [] [] H1 H2).
Defined.

Lemma max_from_nan (l : list (option R)) : max_from nan_gtb None l = None.
Proof.
  induction l as [|s l IH]; [reflexivity|].
  cbn [max_from]. now destruct s.
Qed.

Lemma nan_answer (rest : list (option R)) :
  answer nan_eqb nan_gtb (None :: rest) = Raise TypeError.
Proof.
  rewrite answer_cases. cbn [py_max]. rewrite max_from_nan.
  rewrite nonzero_from_all_false; [reflexivity|].
  apply Forall_map, Forall_forall. intros s _. now destruct s.
Qed.

(** X16: when the first correlation score is [nan] (a constant spectrum
    at the first composition), [max] returns [nan], no score compares
    equal to it, and the correlation selection raises [TypeError]
    whatever the other scores are. *)
Theorem nan_first_correlation_raises (st : state) (rest : list (option R)) :
  correlation st = None :: rest ->
  correlation_answer st = Raise TypeError.
Proof.
  intros E. unfold correlation_answer. rewrite E. apply nan_answer.
Qed.

Lemma nan_first_correlation_raises_witness :
  let st := mkState [] [None; Some 1] [] [] in
  correlation st = None :: [Some 1] /\
  correlation_answer st = Raise TypeError.
Proof.
  intros st.
  assert (E : correlation st = None :: [Some 1]) by reflexivity.
  split; [exact E|].
  exact (@nan_first_correlation_raises st [Some 1] E).
Defined.

End SelectionMore.

(* ================================================================== *)
(** * More on the whole run *)

Module ProgramMore.
Import Spectral Selection Program.
Local Open Scope R_scope.

Section Run.

Variables wavelength spectrum_regression : list R.
Variables d1 d2 d3 d4 d5 d6 : list R.
Variable data : list (list R).
Variable Rbf : list R -> list R -> list R -> list R -> list R -> list R ->
               list R -> Grid.composition -> R.

(** X17: the script for a resolution [N] stops with [IndexError] at the
    printed step [v[1] - v[0]] when [N < 2]; for every other [N] the
    step is printed and the run is the search on [linspace(0, 1, N)]. *)
Theorem main_cases (N : nat) :
  main wavelength spectrum_regression d1 d2 d3 d4 d5 d6 data Rbf N =
  if (N <? 2)%nat then Raise IndexError
  else search_and_select wavelength spectrum_regression
         d1 d2 d3 d4 d5 d6 data Rbf (Grid.v N).
Proof.
  destruct (Nat.ltb_spec N 2) as [H|H].
  - destruct N as [|[|N]]; [reflexivity|reflexivity|lia].
  - unfold main, resolution.
    pose proof (GridFacts.linspace_length 0 1 N) as L. fold (Grid.v N) in L.
    destruct (nth_error (Grid.v N) 1) as [a|] eqn:E1;
      [|apply nth_error_None in E1; lia].
    destruct (nth_error (Grid.v N) 0) as [b|] eqn:E0;
      [|apply nth_error_None in E0; lia].
    reflexivity.
Qed.

Lemma index_in_range {A : Type} (l : list A) (a : nat) (x : A) :
  nth_error l a = Some x -> (a < length l)%nat.
Proof. intros H. apply nth_error_Some. congruence. Qed.

Lemma fractions_in_range (v : list float) (a : nat) :
  (a < length (Grid.compositions v))%nat ->
  exists c, Grid.fractions_at v a = Ok c /\
            nth_error (Grid.compositions v) a = Some c.
Proof.
  intros H. rewrite GridMore.fractions_at_nth.
  destruct (nth_error (Grid.compositions v) a) as [c|] eqn:E.
  - exists c. split; reflexivity.
  - apply nth_error_None in E. lia.
Qed.

(** X18: a run that completes reports one index per metric, never
    "multiple best fits", and each index is the position of an
    enumerated composition: the lookups [V1[a] .. V6[a]] of the printed
    fractions succeed and give that composition. *)
Theorem completed_run_reports_compositions
        (v : list float) (st' : state) (ra rb rc : report) :
  search_and_select wavelength spectrum_regression d1 d2 d3 d4 d5 d6
    data Rbf v = Ok (st', (ra, rb, rc)) ->
  exists a b c ca cb cc,
    ra = BestFit a /\ rb = BestFit b /\ rc = BestFit c /\
    Grid.fractions_at v a = Ok ca /\ nth_error (Grid.compositions v) a = Some ca /\
    Grid.fractions_at v b = Ok cb /\ nth_error (Grid.compositions v) b = Some cb /\
    Grid.fractions_at v c = Ok cc /\ nth_error (Grid.compositions v) c = Some cc.
Proof.
  unfold search_and_select.
  destruct (grid_search _ _ _ _ _) as [st|e] eqn:G; [|discriminate].
  cbn [bind].
  destruct (correlation_answer st) as [xa|e] eqn:A; [|discriminate].
  destruct (integral_answer st) as [xb|e] eqn:B; [|discriminate].
  destruct (covariance_answer st) as [xc|e] eqn:C; [|discriminate].
  cbn [bind]. intros H. injection H as <- <- <- <-.
  apply ScoresMore.grid_search_lengths in G.
  destruct G as (_ & Lc & Li & Lv).
  destruct (@ProgramFacts.fitted_state_sequences d1 d2 d3 d4 d5 d6 data Rbf)
    as (Ec & Ei & Ev).
  rewrite Ec in Lc. rewrite Ei in Li. rewrite Ev in Lv. cbn [length Nat.add] in *.
  apply SelectionMore.answer_sound in A, B, C.
  destruct A as (a & ma & sa & -> & _ & Ha & _).
  destruct B as (b & mb & sb & -> & _ & Hb & _).
  destruct C as (c & mc & sc & -> & _ & Hc & _).
  apply index_in_range in Ha, Hb, Hc. rewrite Lc in Ha. rewrite Li in Hb.
  rewrite Lv in Hc.
  destruct (fractions_in_range v Ha) as (ca & Fa & Na).
  destruct (fractions_in_range v Hb) as (cb & Fb & Nb).
  destruct (fractions_in_range v Hc) as (cc & Fc & Nc).
  exists a, b, c, ca, cb, cc. cbn [snd]. repeat split; assumption.
Qed.

End Run.


(** ** A run that completes: N = 2, absorbance only for the last dye *)

Lemma Req_bool_neq (a b : R) : a <> b -> Req_bool a b = false.
Proof.
  intros H. unfold Req_bool.
  destruct (Req_EM_T a b) as [E|_]; [contradiction|reflexivity].
Qed.

Lemma example_lhe_last :
  map (fun row => LHE (Example.Rbf_last Example.d Example.d Example.d
                         Example.d Example.d Example.d row
                         (0, 0, 0, 0, 0, 1)%float))
      Example.data = [0; 0; 9 / 10].
Proof.
  change (map _ Example.data) with [LHE 0; LHE 0; LHE 1].
  now rewrite SpectralFacts.LHE_0, SpectralFacts.LHE_1.
Qed.

Lemma example_lhe_other (x1 x2 x3 x4 x5 : float) :
  map (fun row => LHE (Example.Rbf_last Example.d Example.d Example.d
                         Example.d Example.d Example.d row
                         (x1, x2, x3, x4, x5, 0)%float))
      Example.data = [0; 0; 0].
Proof.
  change (map _ Example.data) with [LHE 0; LHE 0; LHE 0].
  now rewrite SpectralFacts.LHE_0.
Qed.

Lemma example_pearson :
  exists r, pearson_r [0; 2; 4] [0; 0; 9 / 10] = Some r.
Proof.
  unfold pearson_r, all_equal_first. cbn [forallb hd length Nat.eqb].
  rewrite (@Req_bool_neq 2 0) by lra.
  rewrite (@Req_bool_neq (9 / 10) 0) by lra.
  rewrite !andb_false_r. cbn [orb andb]. eexists. reflexivity.
Qed.

Lemma example_pearson_flat (x : list R) : pearson_r x [0; 0; 0] = None.
Proof.
  unfold pearson_r, all_equal_first. cbn [forallb hd].
  rewrite !ProgramFacts.Req_bool_refl. cbn [andb]. now rewrite orb_true_r.
Qed.

Lemma example_trapezoid : trapezoid [0; 0; 9 / 10] Example.wavelength = 9 / 20.
Proof.
  unfold trapezoid, np_diff, np_mul, np_add, np_sum, Example.wavelength.
  simpl. lra.
Qed.

Lemma example_trapezoid_flat : trapezoid [0; 0; 0] Example.wavelength = 0.
Proof.
  unfold trapezoid, np_diff, np_mul, np_add, np_sum, Example.wavelength.
  simpl. lra.
Qed.

Lemma example_covariance_flat : sample_covariance [0; 2; 4] [0; 0; 0] = 0.
Proof.
  unfold sample_covariance, np_mean, np_sum. simpl. field.
Qed.

Lemma answer_nan_tail (r : R) (n : nat) :
  answer nan_eqb nan_gtb (Some r :: repeat None n)
  = Ok ([[0%nat]], BestFit 0).
Proof.
  rewrite SelectionFacts.answer_cases. cbn [py_max].
  assert (Hm : max_from nan_gtb (Some r) (repeat None n) = Some r)
    by (induction n as [|n IH]; [reflexivity|exact IH]).
  rewrite Hm. cbn [map nonzero_from nan_eqb].
  rewrite ProgramFacts.Req_bool_refl, map_repeat. cbn [nan_eqb].
  now rewrite SelectionFacts.nonzero_from_repeat_false.
Qed.

Lemma example_run :
  exists st',
    search_and_select Example.wavelength Example.spectrum_regression
      Example.d Example.d Example.d Example.d Example.d Example.d
      Example.data Example.Rbf_last (Grid.v 2)
    = Ok (st', (BestFit 0, BestFit 0, BestFit 0)).
Proof.
  unfold search_and_select.
  rewrite GridFacts.compositions_two_point_grid.
  rewrite SpectralFacts.grid_search_fit by (simpl; lia).
  cbn [bind map].
  rewrite example_lhe_last, !example_lhe_other.
  rewrite SpectralFacts.example_regression_values.
  rewrite !example_pearson_flat, example_trapezoid, example_trapezoid_flat,
    SpectralFacts.example_covariance, example_covariance_flat.
  destruct example_pearson as [r ->].
  unfold correlation_answer, integral_answer, covariance_answer.
  cbn [correlation integral covariance].
  rewrite (answer_nan_tail r 5
           : answer nan_eqb nan_gtb [Some r; None; None; None; None; None] = _).
  assert (Hi : answer Req_bool Rgt_bool [9 / 20; 0; 0; 0; 0; 0]
               = Ok ([[0%nat]], BestFit 0))
    by (apply (@SelectionMore.answer_strict_maximum (9 / 20) [] [0; 0; 0; 0; 0]);
        repeat constructor; lra).
  assert (Hv : answer Req_bool Rgt_bool [9 / 10; 0; 0; 0; 0; 0]
               = Ok ([[0%nat]], BestFit 0))
    by (apply (@SelectionMore.answer_strict_maximum (9 / 10) [] [0; 0; 0; 0; 0]);
        repeat constructor; lra).
  rewrite Hi, Hv.
  cbn [bind snd length]. eexists. reflexivity.
Qed.

Lemma completed_run_reports_compositions_witness :
  exists st',
    search_and_select Example.wavelength Example.spectrum_regression
      Example.d Example.d Example.d Example.d Example.d Example.d
      Example.data Example.Rbf_last (Grid.v 2)
    = Ok (st', (BestFit 0, BestFit 0, BestFit 0)) /\
    exists a b c ca cb cc,
      BestFit 0 = BestFit a /\ BestFit 0 = BestFit b /\ BestFit 0 = BestFit c /\
      Grid.fractions_at (Grid.v 2) a = Ok ca /\
      nth_error (Grid.compositions (Grid.v 2)) a = Some ca /\
      Grid.fractions_at (Grid.v 2) b = Ok cb /\
      nth_error (Grid.compositions (Grid.v 2)) b = Some cb /\
      Grid.fractions_at (Grid.v 2) c = Ok cc /\
      nth_error (Grid.compositions (Grid.v 2)) c = Some cc.
Proof.
  destruct example_run as [st' H]. exists st'. split; [exact H|].
  exact (@completed_run_reports_compositions Example.wavelength
           Example.spectrum_regression Example.d Example.d Example.d
           Example.d Example.d Example.d Example.data Example.Rbf_last
           (Grid.v 2) st' (BestFit 0) (BestFit 0) (BestFit 0) H).
Defined.

(** X19: for every resolution N >= 2 whose meshgrid numpy can build, the
    enumerated grid is not empty (the last unit vector passes the
    filter), so [max] never sees an empty score sequence. *)
Theorem enumeration_never_empty (N : nat) :
  (2 <= N)%nat -> Grid.meshgrid_fits N ->
  Grid.compositions (Grid.v N) <> [] /\
  In (Grid.corner (Grid.v N)) (Grid.compositions (Grid.v N)).
Proof.
  intros H2 HN. split; [now apply GridFacts.enumerated_grid_nonempty|].
  pose proof (GridFacts.meshgrid_fits_bound HN) as Hb.
  assert (Hne : Grid.v N <> []).
  { intros E. pose proof (GridFacts.linspace_length 0 1 N) as L.
    fold (Grid.v N) in L. rewrite E in L. simpl in L. lia. }
  rewrite GridFacts.compositions_filter. apply filter_In. split.
  - assert (Hh : In (hd 0%float (Grid.v N)) (Grid.v N))
      by (destruct (Grid.v N); [congruence | left; reflexivity]).
    apply GridFacts.product6_In_intro; try exact Hh.
    now apply GridFacts.last_In.
  - pose proof GridFacts.grid_corners_sum_to_one as H.
    rewrite forallb_forall in H. apply H. apply in_seq. lia.
Qed.

Lemma enumeration_never_empty_witness :
  (2 <= 11)%nat /\ Grid.meshgrid_fits 11 /\
  Grid.compositions (Grid.v 11) <> [] /\
  In (Grid.corner (Grid.v 11)) (Grid.compositions (Grid.v 11)).
Proof.
  assert (H2 : (2 <= 11)%nat) by lia.
  assert (Hf : Grid.meshgrid_fits 11) by (unfold Grid.meshgrid_fits; lia).
  split; [exact H2|]. split; [exact Hf|].
  exact (@enumeration_never_empty 11 H2 Hf).
Defined.

End ProgramMore.

(* ================================================================== *)
(** * Rounding in the reference spectrum *)

Module Float64Facts.
Import Float64.
Local Open Scope float_scope.



End Float64Facts.
